(** * MerryChristmas: gesture classifier, scene state and animators

    A shallow embedding of the TypeScript sources of the interactive
    tree (utils/math.ts, services/vision.ts, App.tsx and the animator
    components) together with the properties stated for them.

    JavaScript numbers are modelled as real numbers: rounding of IEEE
    doubles is not part of the model.  [Math.random] is a tape of draws
    read through a cursor.  Objects that the code mutates in place
    (userData.progress of a mesh, the uProgress uniform, a React ref)
    live in a store indexed by locations. *)

From Stdlib Require Import Reals Lra Lia.
From Stdlib Require Import String Ascii.
From stdpp Require Import base option list gmap pretty.

Open Scope R_scope.

(** ** Numbers and comparisons *)

(** [a > b] as JavaScript evaluates it, to a boolean. *)
Definition Rgtb (a b : R) : bool := if Rlt_dec b a then true else false.

(** [a === b] on numbers. *)
Definition Reqb (a b : R) : bool := if Req_dec_T a b then true else false.

(** [Math.cbrt]: the real cube root, odd and total. *)
Definition cbrt (x : R) : R :=
  if Rlt_dec 0 x then Rpower x (/ 3)
  else if Rlt_dec x 0 then - Rpower (- x) (/ 3)
  else 0.

(** [THREE.MathUtils.clamp(value, min, max)] is
    [Math.max(min, Math.min(max, value))]. *)
Definition clamp (value lo hi : R) : R := Rmax lo (Rmin hi value).

(** [THREE.MathUtils.lerp(x, y, t)] is [(1 - t) * x + t * y]. *)
Definition lerp (x y t : R) : R := (1 - t) * x + t * y.

(** ** THREE.Vector3 *)

Record Vector3 := mkVector3 { vx : R; vy : R; vz : R }.

(** [new Vector3().lerpVectors(v1, v2, alpha)]: component-wise
    [v1 + (v2 - v1) * alpha]. *)
Definition lerpVectors (v1 v2 : Vector3) (alpha : R) : Vector3 :=
  {| vx := vx v1 + (vx v2 - vx v1) * alpha;
     vy := vy v1 + (vy v2 - vy v1) * alpha;
     vz := vz v1 + (vz v2 - vz v1) * alpha |}.

(** ** Math.random as a tape of draws *)

Record RNG := mkRNG { tape : nat -> R; cursor : nat }.

(** Every draw of [Math.random] lies in [0, 1). *)
Definition unit_draws (g : RNG) : Prop := forall k, 0 <= tape g k < 1.

(** Computations that draw random numbers: a state monad over [RNG]. *)
Definition Rand (A : Type) : Type := RNG -> A * RNG.

Definition rret {A} (a : A) : Rand A := fun g => (a, g).

Definition rbind {A B} (m : Rand A) (k : A -> Rand B) : Rand B :=
  fun g => let (a, g') := m g in k a g'.

Notation "'draw' x ':=' m 'in' k" := (rbind m (fun x => k))
  (at level 10, x name, m at level 200, k at level 200,
   format "'[v' 'draw'  x  :=  m  'in'  '/' k ']'").

Definition Math_random : Rand R :=
  fun g => (tape g (cursor g), {| tape := tape g; cursor := S (cursor g) |}).

(** The source after [k] more draws. *)
Definition advance (g : RNG) (k : nat) : RNG :=
  mkRNG (tape g) (k + cursor g).

(** ** utils/math.ts *)

Definition getRandomSpherePoint (radius : R) : Rand Vector3 :=
  draw u := Math_random in
  draw v := Math_random in
  let theta := 2 * PI * u in
  let phi := acos (2 * v - 1) in
  draw w := Math_random in
  let r := cbrt w * radius in
  let sinPhi := sin phi in
  rret (mkVector3 (r * sinPhi * cos theta)
                  (r * sinPhi * sin theta)
                  (r * cos phi)).

Definition getConePoint (height maxRadius verticalBias : R) : Rand Vector3 :=
  draw u := Math_random in
  let y := u * height in
  let rAtY := (1 - y / height) * maxRadius in
  draw a := Math_random in
  let angle := a * PI * 2 in
  draw w := Math_random in
  let r := sqrt w * rAtY in
  rret (mkVector3 (r * cos angle)
                  (y - height / 2 + verticalBias)
                  (r * sin angle)).

Definition normalizeRange (val min max newMin newMax : R) : R :=
  newMin + ((val - min) * (newMax - newMin)) / (max - min).

(** ** types.ts *)

Inductive AppState := IDLE | LOADING | READY | RUNNING | ERROR.

Inductive TreeState := CHAOS | FORMED.

Record HandGesture := mkHandGesture {
  isOpen : bool;
  position : R * R;
  detected : bool
}.

(** ** services/vision.ts *)

(** A landmark in normalized video coordinates. *)
Record Landmark := mkLandmark { lm_x : R; lm_y : R }.

(** What [detectForVideo] does: it throws, or it returns results whose
    [landmarks] field is absent or holds one landmark list per hand. *)
Inductive Inference :=
| InferenceThrows
| InferenceResults (landmarks : option (list (list Landmark))).

Record HTMLVideoElement := mkVideo {
  videoWidth : nat;
  videoHeight : nat;
  currentTime : R
}.

Record HandLandmarker := mkHandLandmarker {
  detectForVideo : HTMLVideoElement -> R -> Inference
}.

Record VisionService := mkVisionService {
  handLandmarker : option HandLandmarker;
  video : option HTMLVideoElement;
  lastVideoTime : R;
  isRunning : bool
}.

(** The value [detect] returns when it is not [null]. *)
Record Reading := mkReading {
  r_isOpen : bool;
  r_x : R;
  r_y : R;
  r_detected : bool
}.

Definition tips : list nat := [4; 8; 12; 16; 20]%nat.

(** One round of [tips.forEach]: reading [tip.x] or [wrist.x] of a
    missing landmark throws a TypeError, here [None]. *)
Definition addTipDist (landmarks : list Landmark) (wrist : option Landmark)
    (totalDist : option R) (idx : nat) : option R :=
  total ← totalDist;
  tip ← landmarks !! idx;
  w ← wrist;
  let dist := sqrt ((lm_x tip - lm_x w) ^ 2 + (lm_y tip - lm_y w) ^ 2) in
  Some (total + dist).

(** Classification of the first hand, the body of the [if] branch of
    [detect]; [None] when it throws. *)
Definition classify (landmarks : list Landmark) : option Reading :=
  let wrist := landmarks !! 0%nat in
  totalDist ← foldl (addTipDist landmarks wrist) (Some 0) tips;
  let avgDist := totalDist / INR (length tips) in
  let isOpen := Rgtb avgDist 0.25 in
  let sumX := foldl (fun s l => s + lm_x l) 0 landmarks in
  let sumY := foldl (fun s l => s + lm_y l) 0 landmarks in
  let normX := - ((sumX / INR (length landmarks)) - 0.5) * 2 in
  let normY := - ((sumY / INR (length landmarks)) - 0.5) * 2 in
  Some (mkReading isOpen normX normY true).

(** The [try] block of [detect]: an exception of the inference or of
    the classification is caught and gives [null]. *)
Definition tryDetect (lm : HandLandmarker) (v : HTMLVideoElement)
    (startTimeMs : R) : option Reading :=
  match detectForVideo lm v startTimeMs with
  | InferenceThrows => None
  | InferenceResults (Some (hand :: _)) => classify hand
  | InferenceResults _ => Some (mkReading false 0 0 false)
  end.

(** [detect()]: the result ([None] is [null]) and the service with its
    [lastVideoTime] updated.  [now] is [performance.now()]. *)
Definition detect (now : R) (s : VisionService)
    : option Reading * VisionService :=
  match handLandmarker s, video s, isRunning s with
  | Some lm, Some v, true =>
      if ((videoWidth v =? 0) || (videoHeight v =? 0))%nat then (None, s)
      else
        let startTimeMs := now in
        if negb (Reqb (currentTime v) (lastVideoTime s)) then
          let s' := {| handLandmarker := handLandmarker s;
                       video := video s;
                       lastVideoTime := currentTime v;
                       isRunning := isRunning s |} in
          (tryDetect lm v startTimeMs, s')
        else (None, s)
  | _, _, _ => (None, s)
  end.

(** A thrown value, as the handlers look at it: [e?.name] and
    [e?.message], each possibly missing. *)
Inductive JsError := mkJsError (name : option string) (message : option string).

Definition e_name (e : JsError) : option string :=
  match e with mkJsError n _ => n end.

Definition e_message (e : JsError) : option string :=
  match e with mkJsError _ m => m end.

Inductive Outcome (A : Type) :=
| Resolves (a : A)
| Rejects (e : JsError).
Arguments Resolves {A} a.
Arguments Rejects {A} e.

Definition initialize (created : Outcome HandLandmarker) (s : VisionService)
    : Outcome VisionService :=
  match created with
  | Resolves lm => Resolves {| handLandmarker := Some lm;
                               video := video s;
                               lastVideoTime := lastVideoTime s;
                               isRunning := isRunning s |}
  | Rejects e => Rejects e
  end.

(** [startCamera(videoElement)]: the element is stored first; when
    [getUserMedia] or [play] rejects, the error is rethrown and
    [isRunning] stays as it was. *)
Definition startCamera (videoElement : HTMLVideoElement)
    (stream : Outcome unit) (s : VisionService)
    : VisionService * option JsError :=
  let s1 := {| handLandmarker := handLandmarker s;
               video := Some videoElement;
               lastVideoTime := lastVideoTime s;
               isRunning := isRunning s |} in
  match stream with
  | Resolves _ => ({| handLandmarker := handLandmarker s1;
                      video := video s1;
                      lastVideoTime := lastVideoTime s1;
                      isRunning := true |}, None)
  | Rejects err => (s1, Some err)
  end.

(** [stop()]: the flag is cleared (the tracks of the stream are stopped
    outside of this model). *)
Definition stop (s : VisionService) : VisionService :=
  {| handLandmarker := handLandmarker s;
     video := video s;
     lastVideoTime := lastVideoTime s;
     isRunning := false |}.

(** ** App.tsx *)

(** The React state of [App] and what it holds in refs. *)
Record App := mkApp {
  appState : AppState;
  treeState : TreeState;
  gesture : option HandGesture;
  errorMsg : string;
  requestRef : option nat
}.

(** The app and the [visionService] singleton it drives. *)
Record World := mkWorld {
  app : App;
  service : VisionService;
  frames : nat  (* handles given out by requestAnimationFrame *)
}.

Definition setAppState (v : AppState) (a : App) : App :=
  {| appState := v; treeState := treeState a; gesture := gesture a;
     errorMsg := errorMsg a; requestRef := requestRef a |}.

Definition setTreeState (v : TreeState) (a : App) : App :=
  {| appState := appState a; treeState := v; gesture := gesture a;
     errorMsg := errorMsg a; requestRef := requestRef a |}.

Definition setGesture (v : option HandGesture) (a : App) : App :=
  {| appState := appState a; treeState := treeState a; gesture := v;
     errorMsg := errorMsg a; requestRef := requestRef a |}.

Definition setErrorMsg (v : string) (a : App) : App :=
  {| appState := appState a; treeState := treeState a; gesture := gesture a;
     errorMsg := v; requestRef := requestRef a |}.

Definition setRequestRef (v : option nat) (a : App) : App :=
  {| appState := appState a; treeState := treeState a; gesture := gesture a;
     errorMsg := errorMsg a; requestRef := v |}.

Definition initialApp : App :=
  {| appState := IDLE; treeState := CHAOS; gesture := None;
     errorMsg := ""; requestRef := None |}.

(** The [if (result) { ... }] block of [loop]. *)
Definition onResult (result : option Reading) (a : App) : App :=
  match result with
  | Some r =>
      let a1 := setGesture (Some {| isOpen := r_isOpen r;
                                    position := (r_x r, r_y r);
                                    detected := r_detected r |}) a in
      if r_detected r then
        if r_isOpen r then setTreeState CHAOS a1 else setTreeState FORMED a1
      else a1
  | None => a
  end.

(** One run of [loop]; [requestAnimationFrame] hands out the next
    handle, which is kept in [requestRef]. *)
Definition loop (now : R) (w : World) : World :=
  if isRunning (service w) then
    let (result, s') := detect now (service w) in
    let a' := onResult result (app w) in
    let handle := S (frames w) in
    {| app := setRequestRef (Some handle) a'; service := s'; frames := handle |}
  else w.

(** The manual override buttons. *)
Inductive Click := UNLEASH | FORM.

Definition onClick (c : Click) (a : App) : App :=
  match c with
  | UNLEASH => setTreeState CHAOS a
  | FORM => setTreeState FORMED a
  end.

(** The cleanup of the mount effect: the pending frame is cancelled in
    the browser and the service is stopped. *)
Definition cleanup (w : World) : World :=
  {| app := app w; service := stop (service w); frames := frames w |}.

(** [n] further runs of [loop], at the times [nows]. *)
Definition loops (nows : list R) (w : World) : World :=
  foldl (fun w now => loop now w) w nows.

(** What can reach the tree state and the gesture of a running app: a
    result of [detect] handled by [loop], or a click on a manual
    control. *)
Inductive Event :=
| Detected (result : option Reading)
| Clicked (c : Click).

Definition handle (a : App) (e : Event) : App :=
  match e with
  | Detected result => onResult result a
  | Clicked c => onClick c a
  end.

Definition handleAll (events : list Event) (a : App) : App :=
  foldl handle a events.

(** What [startExperience] finds in its environment. *)
Record Browser := mkBrowser {
  hasGetUserMedia : bool;
  createLandmarker : Outcome HandLandmarker;
  videoRef : option HTMLVideoElement;
  getUserMedia : Outcome unit
}.

Definition cameraRelated (errName : string) : bool :=
  (String.eqb errName "NotFoundError")
  || (String.eqb errName "NotAllowedError")
  || (String.eqb errName "NotReadableError")
  || (String.eqb errName "OverconstrainedError")
  || (String.eqb errName "SecurityError").

(** [x || d] on a string that may be missing: the empty string is falsy. *)
Definition orElse (x : option string) (d : string) : string :=
  match x with
  | Some s => if String.eqb s "" then d else s
  | None => d
  end.

(** The [catch] block of [startExperience]. *)
Definition onStartError (e : JsError) (w : World) : World :=
  let errName := orElse (e_name e) "" in
  if cameraRelated errName then
    {| app := setAppState RUNNING (app w); service := service w;
       frames := frames w |}
  else
    let a1 := setErrorMsg
                (orElse (e_message e) "Failed to start camera or load AI models.")
                (app w) in
    {| app := setAppState ERROR a1; service := service w; frames := frames w |}.

Definition startExperience (b : Browser) (now : R) (w : World) : World :=
  let w0 := {| app := setErrorMsg "" (setAppState LOADING (app w));
               service := service w; frames := frames w |} in
  if negb (hasGetUserMedia b) then
    {| app := setAppState RUNNING (app w0); service := service w0;
       frames := frames w0 |}
  else
    match initialize (createLandmarker b) (service w0) with
    | Rejects e => onStartError e w0
    | Resolves s1 =>
        let '(s2, thrown) :=
          match videoRef b with
          | Some el => startCamera el (getUserMedia b) s1
          | None => (s1, None)
          end in
        let w2 := {| app := app w0; service := s2; frames := frames w0 |} in
        match thrown with
        | Some e => onStartError e w2
        | None =>
            loop now {| app := setAppState RUNNING (app w2);
                        service := service w2; frames := frames w2 |}
        end
    end.

(** The overlay that [App] renders for its state, and the actions a
    click can trigger there. *)
Inductive Action :=
| CallStartExperience
| CallReload
| CallSetTreeState (t : TreeState).

Inductive Overlay :=
| StartScreen (enter : Action)
| LoadingNotice
| ErrorPanel (text : string) (retry : Action)
| Controls (unleash form : Action).

Definition overlay (a : App) : option Overlay :=
  match appState a with
  | IDLE => Some (StartScreen CallStartExperience)
  | LOADING => Some LoadingNotice
  | ERROR => Some (ErrorPanel (errorMsg a) CallReload)
  | RUNNING => Some (Controls (CallSetTreeState CHAOS) (CallSetTreeState FORMED))
  | READY => None
  end.

(** ** constants.ts *)

Module CONFIG.
Definition treeHeight : R := 12.
Definition treeRadius : R := 4.
Definition particleCount : nat := 5000.
End CONFIG.

(** ** The objects the animators mutate *)

Record Euler := mkEuler { ex : R; ey : R; ez : R }.

(** What [setMatrixAt] stores for one instance: the matrix composed by
    [dummy.updateMatrix()] from position, rotation and scale. *)
Record Transform := mkTransform {
  t_position : Vector3;
  t_rotation : Euler;
  t_scale : R
}.

(** A THREE.Object3D (Mesh, InstancedMesh, Group): [userData.progress]
    is [None] while undefined.  The orientation of a photo group goes
    through three.js quaternion conversions and is left out. *)
Record Object3D := mkObject3D {
  userData_progress : option R;
  o_position : Vector3;
  o_rotation : Euler;
  instanceMatrix : list Transform
}.

Inductive HeapObj :=
| Obj3D (o : Object3D)
| ShaderUniforms (uProgress uTime : R)
| NumberRef (current : R).

Abbreviation loc := positive.
Abbreviation Store := (gmap positive HeapObj).

(** [useRef] / object creation: a location not yet in use. *)
Definition alloc (o : HeapObj) (σ : Store) : loc * Store :=
  let l := fresh (dom σ) in (l, <[l := o]> σ).

Definition isFormed (t : TreeState) : bool :=
  match t with FORMED => true | CHAOS => false end.

(** [dest] / [targetProgress]: 1 when FORMED, 0 otherwise. *)
Definition destOf (t : TreeState) : R := if isFormed t then 1 else 0.

(** The lazy initialisation [if (progress === undefined) progress = 0]
    followed by a read. *)
Definition progressOr0 (p : option R) : R :=
  match p with Some v => v | None => 0 end.

(** [p += (dest - p) * speed]. *)
Definition relax (dest speed p : R) : R := p + (dest - p) * speed.

(** ** components/Topper.tsx *)

Module Topper.

Definition speed : R := 0.02.

Definition targetPos : Vector3 :=
  mkVector3 0 (CONFIG.treeHeight / 2 + 5.0) 0.

Definition frame (treeState : TreeState) (chaosPos : Vector3) (time : R)
    (m : Object3D) : Object3D :=
  let isForming := isFormed treeState in
  let p0 := progressOr0 (userData_progress m) in
  let dest := if isForming then 1 else 0 in
  let p := relax dest speed p0 in
  let currentPos := lerpVectors chaosPos targetPos p in
  let currentPos :=
    if isForming
    then mkVector3 (vx currentPos) (vy currentPos + sin (time * 1.5) * 0.1)
                   (vz currentPos)
    else currentPos in
  {| userData_progress := Some p;
     o_position := currentPos;
     o_rotation := mkEuler (ex (o_rotation m)) (ey (o_rotation m) + 0.01)
                         (ez (o_rotation m) + 0.005);
     instanceMatrix := instanceMatrix m |}.

Definition useFrame (treeState : TreeState) (chaosPos : Vector3) (time : R)
    (meshRef : option loc) (σ : Store) : Store :=
  match meshRef with
  | None => σ
  | Some l =>
      match σ !! l with
      | Some (Obj3D m) => <[l := Obj3D (frame treeState chaosPos time m)]> σ
      | _ => σ
      end
  end.

End Topper.

(** ** components/Ornaments.tsx *)

Module Ornaments.

Inductive OrnamentType := ball | gift.

Definition count (type : OrnamentType) : nat :=
  match type with ball => 50 | gift => 30 end.

Definition speed (type : OrnamentType) : R :=
  match type with ball => 0.025 | gift => 0.015 end.

Record Data := mkData {
  chaosPos : list Vector3;
  targetPos : list Vector3;
  rotations : list Euler
}.

Definition emptyData : Data := mkData [] [] [].

(** The highest [y] an ornament may take: above it the sample is
    dropped and drawn again. *)
Definition ceiling : R := CONFIG.treeHeight / 2 + 5.0 - 0.8.

(** The ornament that one accepted cone sample [t] (already shifted up)
    adds to the arrays. *)
Definition pushOrnament (t : Vector3) (data : Data) : Rand Data :=
  let dist := sqrt (vx t * vx t + vz t * vz t) in
  let t := if Rgtb dist 0.1
           then mkVector3 (vx t * 1.1) (vy t) (vz t * 1.1)
           else t in
  draw chaos := getRandomSpherePoint 20 in
  draw a := Math_random in
  draw b := Math_random in
  let rot := mkEuler (a * PI) (b * PI) 0 in
  rret (mkData (chaosPos data ++ [chaos]) (targetPos data ++ [t])
               (rotations data ++ [rot])).

(** The [while (i < count)] loop of the data memo.  Each round of the
    loop takes one unit of [fuel]; [None] when the fuel runs out before
    [count] samples were accepted. *)
Fixpoint fillData (fuel count i : nat) (data : Data) : Rand (option Data) :=
  if (i <? count)%nat then
    match fuel with
    | O => rret None
    | S fuel' =>
        draw t := getConePoint CONFIG.treeHeight (CONFIG.treeRadius * 0.9) 1 in
        let t := mkVector3 (vx t) (vy t + 5.0) (vz t) in
        if Rgtb (vy t) ceiling then fillData fuel' count i data
        else
          draw data' := pushOrnament t data in
          fillData fuel' count (S i) data'
    end
  else rret (Some data).

(** The data memo of a mesh of the given type. *)
Definition useMemoData (fuel : nat) (type : OrnamentType) : Rand (option Data) :=
  fillData fuel (count type) 0 emptyData.

(** The body of [for (let i = 0; i < count; i++)]; copying from a
    missing array entry throws, here [None]. *)
Definition instanceStep (type : OrnamentType) (treeState : TreeState)
    (scale : R) (data : Data) (time : R) (m : Object3D) (i : nat)
    : option Object3D :=
  let isForming := isFormed treeState in
  target ← targetPos data !! i;
  chaos ← chaosPos data !! i;
  rot ← rotations data !! i;
  let targetVec :=
    if isForming
    then mkVector3 (vx target) (vy target + sin (time * 2 + INR i) * 0.1)
                   (vz target)
    else target in
  let chaosVec :=
    if isForming then chaos
    else mkVector3 (vx chaos + sin (time + INR i) * 0.05)
                   (vy chaos + cos (time + INR i) * 0.05)
                   (vz chaos) in
  let p0 := progressOr0 (userData_progress m) in
  let dest := if isForming then 1 else 0 in
  let p := relax dest (speed type) p0 in
  let currentPos := lerpVectors chaosVec targetVec p in
  let dummy :=
    mkTransform currentPos
                (mkEuler (ex rot) (ey rot + time * 0.5) (ez rot))
                (scale * (0.8 + 0.2 * sin (time * 3 + INR i))) in
  Some {| userData_progress := Some p;
          o_position := o_position m;
          o_rotation := o_rotation m;
          instanceMatrix := <[i := dummy]> (instanceMatrix m) |}.

(** The whole [for] loop over the instances, from index [0]. *)
Definition instances (type : OrnamentType) (treeState : TreeState)
    (scale : R) (data : Data) (time : R) (m : Object3D) (n : nat)
    : option Object3D :=
  foldl (fun acc i => m' ← acc; instanceStep type treeState scale data time m' i)
        (Some m) (seq 0 n).

(** The frame callback; [None] when it throws. *)
Definition useFrame (type : OrnamentType) (treeState : TreeState)
    (scale : R) (data : Data) (time : R) (meshRef : option loc) (σ : Store)
    : option Store :=
  match meshRef with
  | None => Some σ
  | Some l =>
      match σ !! l with
      | Some (Obj3D m) =>
          m' ← instances type treeState scale data time m (count type);
          Some (<[l := Obj3D m']> σ)
      | _ => Some σ
      end
  end.

End Ornaments.

(** ** components/Foliage.tsx *)

Module Foliage.

Definition speed : R := 0.02.

Definition useFrame (treeState : TreeState) (time : R)
    (shaderRef : option loc) (σ : Store) : Store :=
  match shaderRef with
  | None => σ
  | Some l =>
      match σ !! l with
      | Some (ShaderUniforms uProgress _) =>
          let targetProgress := if isFormed treeState then 1.0 else 0.0 in
          <[l := ShaderUniforms (lerp uProgress targetProgress speed) time]> σ
      | _ => σ
      end
  end.

(** GLSL [pow(x, y)] for a whole exponent: the result is undefined for
    [x < 0], and for [x = 0] when [y <= 0]. *)
Definition glslPow (x : R) (y : nat) : option R :=
  if Rlt_dec x 0 then None
  else if Reqb x 0 && Nat.eqb y 0 then None
  else Some (x ^ y).

(** The cubic ease-in-out of the vertex shader; [None] where the
    shader leaves the value undefined. *)
Definition ease (t : R) : option R :=
  if Rlt_dec t 0.5 then Some (4.0 * t * t * t)
  else match glslPow (-2.0 * t + 2.0) 3 with
       | Some p => Some (1.0 - p / 2.0)
       | None => None
       end.

(** [mix(a, b, e)] on vectors. *)
Definition mix (a b : Vector3) (e : R) : Vector3 :=
  mkVector3 (vx a * (1 - e) + vx b * e)
            (vy a * (1 - e) + vy b * e)
            (vz a * (1 - e) + vz b * e).

(** The o_position the vertex shader gives one particle. *)
Definition vertexPos (uProgress uTime : R) (aChaosPos aTargetPos : Vector3)
    : option Vector3 :=
  let t := uProgress in
  match ease t with
  | None => None
  | Some e =>
      let pos := mix aChaosPos aTargetPos e in
      if Rgtb t 0.8 then
        let x' := vx pos + sin (uTime * 2.0 + vy pos) * 0.05 in
        let z' := vz pos + cos (uTime * 1.5 + vy pos) * 0.05 in
        Some (mkVector3 x' (vy pos) z')
      else Some pos
  end.

End Foliage.

(** ** components/PolaroidPhotos.tsx *)

Module PolaroidPhotos.

Record Quaternion := mkQuaternion { qx : R; qy : R; qz : R; qw : R }.

(** A candidate and a loaded item: [{ id, src, caption }]. *)
Record Item := mkItem { id : string; src : string; caption : string }.

Record Photo := mkPhoto {
  p_id : string;
  p_src : string;
  p_caption : string;
  baseRotationZ : R;
  targetPos : Vector3;
  chaosPos : Vector3;
  outwardQuat : Quaternion
}.

(** A parsed JSON value. *)
Unset Elimination Schemes.
Inductive Json :=
| JNull
| JBool (b : bool)
| JNumber (n : R)
| JString (s : string)
| JArray (entries : list Json)
| JObject (members : list (string * Json)).
Set Elimination Schemes.

(** [json.files] on a parsed object: the member written last under the
    name, or [undefined]. *)
Definition getProp (key : string) (members : list (string * Json))
    : option Json :=
  snd <$> List.find (fun m => String.eqb (fst m) key) (rev members).

(** What the manifest request can come to; no body stands for a
    [res.json()] that rejects. *)
Inductive Fetch :=
| FetchRejects
| Response (ok : bool) (status : nat) (body : option Json).

(** The first effect: the list handed to [setFiles].  The cast to
    [string[]] checks nothing: the entries are whatever was parsed. *)
Definition loadManifest (f : Fetch) : list Json :=
  match f with
  | FetchRejects => []
  | Response false _ _ => []
  | Response true _ None => []
  | Response true _ (Some json) =>
      match json with
      | JArray entries => entries
      | JNull => []   (* json.files throws, caught *)
      | JObject members =>
          match getProp "files" members with
          | Some (JArray entries) => entries
          | _ => []
          end
      | _ => []       (* json.files is undefined *)
      end
  end.

(** The receiver of [fileName.replace]: only a string has the method;
    on any other parsed value the call throws a [TypeError]. *)
Definition asString (entry : Json) : option string :=
  match entry with
  | JString fileName => Some fileName
  | _ => None
  end.

(** The file names that [files.map] of the second effect goes through;
    [None] when the callback throws.  The callback has no effect but
    its result, so it does not matter at which entry it throws. *)
Definition fileNames (files : list Json) : option (list string) :=
  mapM asString files.

Fixpoint hasDot (s : string) : bool :=
  match s with
  | EmptyString => false
  | String c rest => Ascii.eqb c "."%char || hasDot rest
  end.

(** [fileName.replace(/\.[^.]+$/, '')]. *)
Fixpoint stripExtension (s : string) : string :=
  match s with
  | EmptyString => EmptyString
  | String c rest =>
      if Ascii.eqb c "."%char && negb (hasDot rest)
         && negb (String.eqb rest "")
      then EmptyString
      else String c (stripExtension rest)
  end.

Definition minY : R := 1.8.
Definition maxY : R := CONFIG.treeHeight - 2.8.
Definition verticalBias : R := 1.
Definition yShift : R := 5.0.

(** The [i]-th of [n] equal height bands of [minY, maxY]. *)
Definition bandLo (n i : nat) : R := minY + (maxY - minY) * (INR i / INR n).
Definition bandHi (n i : nat) : R := minY + (maxY - minY) * (INR (S i) / INR n).
Definition inBand (n i : nat) (y : R) : Prop := bandLo n i < y < bandHi n i.

Section Platform.

(** [new URL(path, document.baseURI).toString()]. *)
Variable resolveURL : string -> string.

(** Whether the image of a candidate fires [onload] (or [onerror]). *)
Variable imageLoads : Item -> bool.

(** The quaternion of a scratch object placed at [t], made to look at
    the trunk axis and turned by [Math.PI] around Y. *)
Variable lookOutward : Vector3 -> Quaternion.

Definition candidates (files : list string) : list Item :=
  imap (fun idx fileName =>
          mkItem ("p" ++ pretty (idx + 1)%nat)
                 (resolveURL ("./figs-jpeg/" ++ fileName))
                 (stripExtension fileName))
       files.

(** The second effect: [loaded.filter(Boolean)]. *)
Definition preload (files : list string) : list Item :=
  omap (fun c => if imageLoads c then Some c else None) (candidates files).

Definition getConePointAtY (yInternal maxRadius : R) : Rand Vector3 :=
  let y := clamp yInternal 0 CONFIG.treeHeight in
  let rAtY := (1 - y / CONFIG.treeHeight) * maxRadius in
  draw a := Math_random in
  let angle := a * PI * 2 in
  draw w := Math_random in
  let r := sqrt w * rAtY in
  rret (mkVector3 (r * cos angle)
                  (y - CONFIG.treeHeight / 2 + verticalBias)
                  (r * sin angle)).

(** The height picked for photo [i] of [n] from the draw [j]. *)
Definition yInternalOf (n i : nat) (j : R) : R :=
  let bandT := (INR i + 0.5) / INR n in
  let jitter := (j - 0.5) * 1.2 in
  clamp (minY + (maxY - minY) * bandT + jitter) minY maxY.

(** The body of the loop of [photos], for item [i] of [n]. *)
Definition makePhoto (n i : nat) (item : Item) : Rand Photo :=
  draw j := Math_random in
  let yInternal := yInternalOf n i j in
  draw t := getConePointAtY yInternal (CONFIG.treeRadius * 0.9) in
  let t := mkVector3 (vx t) (vy t + yShift) (vz t) in
  let dist := sqrt (vx t * vx t + vz t * vz t) in
  draw t := (if Rgtb dist 0.001
             then draw q := Math_random in
                  let push := 1.35 + q * 0.15 in
                  rret (mkVector3 (vx t * push) (vy t) (vz t * push))
             else rret t) in
  let quat := lookOutward t in
  draw b := Math_random in
  draw chaos := getRandomSpherePoint 18 in
  rret {| p_id := id item;
          p_src := src item;
          p_caption := caption item;
          baseRotationZ := (b - 0.5) * 0.35;
          targetPos := t;
          chaosPos := chaos;
          outwardQuat := quat |}.

Fixpoint photosFrom (n i : nat) (items : list Item) : Rand (list Photo) :=
  match items with
  | [] => rret []
  | item :: rest =>
      draw p := makePhoto n i item in
      draw ps := photosFrom n (S i) rest in
      rret (p :: ps)
  end.

(** The [photos] memo. *)
Definition photos (items : list Item) : Rand (list Photo) :=
  photosFrom (length items) 0 items.

(** From the manifest request to the photo ornaments; [None] when the
    second effect throws, which takes the component tree down. *)
Definition mountPhotos (f : Fetch) : Rand (option (list Photo)) :=
  fun g =>
    match fileNames (loadManifest f) with
    | None => (None, g)
    | Some names =>
        let '(ps, g') := photos (preload names) g in (Some ps, g')
    end.

End Platform.

(** What the component returns: [null] without photos, else one
    [PolaroidPhoto] per photo, keyed by id, all given the same
    [progressRef]. *)
Definition render (progressRef : loc) (ps : list Photo)
    : option (list (string * nat * loc)) :=
  match ps with
  | [] => None
  | _ => Some (imap (fun idx p => (p_id p, idx, progressRef)) ps)
  end.

(** The frame callback of [PolaroidPhotos]. *)
Definition useFrame (treeState : TreeState) (progressRef : loc) (σ : Store)
    : Store :=
  match σ !! progressRef with
  | Some (NumberRef current) =>
      let dest := if isFormed treeState then 1 else 0 in
      <[progressRef := NumberRef (relax dest 0.02 current)]> σ
  | _ => σ
  end.

(** [progressRef.current ?? 0]. *)
Definition readProgress (progressRef : loc) (σ : Store) : R :=
  match σ !! progressRef with
  | Some (NumberRef current) => current
  | _ => 0
  end.

(** Where the frame callback of [PolaroidPhoto] puts its group. *)
Definition photoPosition (photo : Photo) (index : nat)
    (treeState : TreeState) (time p : R) : Vector3 :=
  let target := targetPos photo in
  let chaos := chaosPos photo in
  let target :=
    if isFormed treeState
    then mkVector3 (vx target + cos (time * 1.2 + INR index) * 0.04)
                   (vy target + sin (time * 1.6 + INR index) * 0.08)
                   (vz target)
    else target in
  let chaos :=
    if isFormed treeState then chaos
    else mkVector3 (vx chaos + sin (time + INR index) * 0.1)
                   (vy chaos + cos (time + INR index) * 0.1)
                   (vz chaos) in
  lerpVectors chaos target p.

(** The frame callback of one [PolaroidPhoto]. *)
Definition photoFrame (photo : Photo) (index : nat) (progressRef : loc)
    (treeState : TreeState) (time : R) (groupRef : option loc) (σ : Store)
    : Store :=
  match groupRef with
  | None => σ
  | Some l =>
      match σ !! l with
      | Some (Obj3D g) =>
          let p := readProgress progressRef σ in
          <[l := Obj3D {| userData_progress := userData_progress g;
                          o_position := photoPosition photo index treeState time p;
                          o_rotation := o_rotation g;
                          instanceMatrix := instanceMatrix g |}]> σ
      | _ => σ
      end
  end.

End PolaroidPhotos.

(** ** components/Scene.tsx: the camera *)

Module Scene.

(** A number that may be NaN ([None]); [undefined] in arithmetic is NaN
    as well, and NaN goes through every operation. *)
Abbreviation JsNum := (option R).

Definition num1 (f : R -> R) (a : JsNum) : JsNum := f <$> a.

Definition num2 (f : R -> R -> R) (a b : JsNum) : JsNum :=
  x ← a; y ← b; Some (f x y).

Record JsVector3 := mkJsVector3 { jx : JsNum; jy : JsNum; jz : JsNum }.

(** [const { x, y } = gesture || { x: 0, y: 0 }]: a [HandGesture] has
    the fields [isOpen], [position] and [detected], so from a gesture
    both [x] and [y] come out undefined. *)
Definition destructureXY (gesture : option HandGesture) : JsNum * JsNum :=
  match gesture with
  | Some _ => (None, None)
  | None => (Some 0, Some 0)
  end.

Definition radius : R := 25.

(** The point the camera moves to. *)
Definition cameraTarget (x y : JsNum) : JsVector3 :=
  let targetX := num1 (fun x => sin (x * 0.5) * radius) x in
  let targetZ := num1 (fun x => cos (x * 0.5) * radius) x in
  let targetY := num1 (fun y => 6 + y * 5) y in
  mkJsVector3 targetX targetY targetZ.

(** [position.lerp(v, alpha)]: [this.x += (v.x - this.x) * alpha] on
    each component. *)
Definition jsLerp (this v : JsVector3) (alpha : R) : JsVector3 :=
  let step := num2 (fun a b => a + (b - a) * alpha) in
  mkJsVector3 (step (jx this) (jx v)) (step (jy this) (jy v))
              (step (jz this) (jz v)).

(** The camera part of the frame callback: the new camera position. *)
Definition cameraFrame (gesture : option HandGesture) (position : JsVector3)
    : JsVector3 :=
  let '(x, y) := destructureXY gesture in
  jsLerp position (cameraTarget x y) 0.05.

(** The position given to [PerspectiveCamera]. *)
Definition initialCamera : JsVector3 :=
  mkJsVector3 (Some 0) (Some 4) (Some 25).

(** The camera after the frames rendered with the given gestures. *)
Definition cameraAfter (gestures : list (option HandGesture))
    (position : JsVector3) : JsVector3 :=
  foldl (fun pos g => cameraFrame g pos) position gestures.

End Scene.

(** ** components/Scene.tsx: mounting the animators *)

Definition origin : Vector3 := mkVector3 0 0 0.

Definition identityTransform : Transform :=
  mkTransform origin (mkEuler 0 0 0) 1.

(** A mesh as React creates it: no [userData.progress] yet, [n]
    instance matrices. *)
Definition newMesh (n : nat) : Object3D :=
  {| userData_progress := None;
     o_position := origin;
     o_rotation := mkEuler 0 0 0;
     instanceMatrix := replicate n identityTransform |}.

Record SceneRefs := mkSceneRefs {
  foliageShader : loc;
  goldBalls : loc;
  redBalls : loc;
  goldGifts : loc;
  topperMesh : loc
}.

(** The children of the scene group, in the order of the JSX: the
    foliage material with its [uniforms] memo, three [Ornaments] and
    the [Topper]. *)
Definition mountScene (σ : Store) : SceneRefs * Store :=
  let '(f, σ) := alloc (ShaderUniforms 0 0) σ in
  let '(g, σ) := alloc (Obj3D (newMesh (Ornaments.count Ornaments.ball))) σ in
  let '(r, σ) := alloc (Obj3D (newMesh (Ornaments.count Ornaments.ball))) σ in
  let '(b, σ) := alloc (Obj3D (newMesh (Ornaments.count Ornaments.gift))) σ in
  let '(t, σ) := alloc (Obj3D (newMesh 0)) σ in
  (mkSceneRefs f g r b t, σ).

(** [const progressRef = useRef(0)] of [PolaroidPhotos]. *)
Definition mountPolaroidPhotos (σ : Store) : loc * Store :=
  alloc (NumberRef 0) σ.

(** The progress scalar kept at a location, as its animator reads it. *)
Definition progressAt (l : loc) (σ : Store) : R :=
  match σ !! l with
  | Some (Obj3D m) => progressOr0 (userData_progress m)
  | Some (ShaderUniforms uProgress _) => uProgress
  | Some (NumberRef current) => current
  | None => 0
  end.

(** ** Spec-side notions used in the statements *)

(** Euclidean distance in the xy-plane between two landmarks. *)
Definition dist_xy (a b : Landmark) : R :=
  sqrt ((lm_x b - lm_x a) * (lm_x b - lm_x a)
        + (lm_y b - lm_y a) * (lm_y b - lm_y a)).

(** Average distance from the wrist to the five fingertips. *)
Definition avgTipDist (wrist t4 t8 t12 t16 t20 : Landmark) : R :=
  (dist_xy wrist t4 + dist_xy wrist t8 + dist_xy wrist t12
   + dist_xy wrist t16 + dist_xy wrist t20) / 5.

(** A hand moved by [(dx, dy)] in the frame. *)
Definition translate (dx dy : R) (landmarks : list Landmark) : list Landmark :=
  (fun l => mkLandmark (lm_x l + dx) (lm_y l + dy)) <$> landmarks.

(** Every landmark lies in the normalized frame. *)
Definition inFrame (landmarks : list Landmark) : Prop :=
  Forall (fun l => 0 <= lm_x l <= 1 /\ 0 <= lm_y l <= 1) landmarks.





(** A service that runs has its landmarker and its video element. *)
Definition runningIsReady (s : VisionService) : Prop :=
  isRunning s = true ->
  is_Some (handLandmarker s) /\ is_Some (video s).

(** The service cannot detect yet: no landmarker, no video, or stopped. *)
Definition notReady (s : VisionService) : Prop :=
  handLandmarker s = None \/ video s = None \/ isRunning s = false.

(** Euclidean norm. *)
Definition norm (v : Vector3) : R :=
  sqrt (vx v * vx v + vy v * vy v + vz v * vz v).

(** The manifest enumerates the file names [names]: the response is
    OK and its body is the array of these strings, or an object with
    that array under [files]. *)
Definition enumerates (f : PolaroidPhotos.Fetch) (names : list string)
    : Prop :=
  match f with
  | PolaroidPhotos.Response true _ (Some (PolaroidPhotos.JArray entries)) =>
      entries = PolaroidPhotos.JString <$> names
  | PolaroidPhotos.Response true _ (Some (PolaroidPhotos.JObject members)) =>
      PolaroidPhotos.getProp "files" members
      = Some (PolaroidPhotos.JArray (PolaroidPhotos.JString <$> names))
  | _ => False
  end.

(** A manifest that is missing or invalid: it enumerates no file
    names. *)
Definition invalidManifest (f : PolaroidPhotos.Fetch) : Prop :=
  ~ exists names, enumerates f names.

(** A manifest that is missing or holds no array: the request fails,
    the response is not OK, the body does not parse, or what was parsed
    is not an array and has no array under [files]. *)
Definition badManifest (f : PolaroidPhotos.Fetch) : Prop :=
  match f with
  | PolaroidPhotos.FetchRejects => True
  | PolaroidPhotos.Response ok _ body =>
      ok = false \/
      match body with
      | None => True
      | Some (PolaroidPhotos.JArray _) => False
      | Some (PolaroidPhotos.JObject members) =>
          match PolaroidPhotos.getProp "files" members with
          | Some (PolaroidPhotos.JArray _) => False
          | _ => True
          end
      | Some _ => True
      end
  end.

(** The error names that stand for a camera or permission problem. *)
Definition cameraErrorNames : list string :=
  ["NotFoundError"; "NotAllowedError"; "NotReadableError";
   "OverconstrainedError"; "SecurityError"]%string.

(** [startExperience] catches [e]: the landmarker could not be created,
    or it could and the camera of the mounted video element failed. *)
Definition initFails (b : Browser) (e : JsError) : Prop :=
  hasGetUserMedia b = true /\
  (createLandmarker b = Rejects e \/
   exists lm el, createLandmarker b = Resolves lm /\
                 videoRef b = Some el /\ getUserMedia b = Rejects e).

(** The height at which a photo hangs, from the jitter draw [j]. *)
Definition hangingHeight (n i : nat) (j : R) : R :=
  clamp (PolaroidPhotos.yInternalOf n i j) 0 CONFIG.treeHeight
  - CONFIG.treeHeight / 2 + PolaroidPhotos.verticalBias
  + PolaroidPhotos.yShift.

(** The tree state an event asks for, if it asks for one. *)
Definition command (e : Event) : option TreeState :=
  match e with
  | Detected (Some r) =>
      if r_detected r then Some (if r_isOpen r then CHAOS else FORMED)
      else None
  | Detected None => None
  | Clicked UNLEASH => Some CHAOS
  | Clicked FORM => Some FORMED
  end.

(** The gesture an event leaves, if it leaves one. *)
Definition reading (e : Event) : option HandGesture :=
  match e with
  | Detected (Some r) =>
      Some (mkHandGesture (r_isOpen r) (r_x r, r_y r) (r_detected r))
  | _ => None
  end.

(** The last element of a list for which [f] gives something. *)
Definition lastOf {A B} (f : A -> option B) (l : list A) : option B :=
  foldl (fun acc x => match f x with Some b => Some b | None => acc end)
        None l.

(** Progress [p'] after progress [p]: no further from the destination
    and not past it. *)
Definition towards (t : TreeState) (p p' : R) : Prop :=
  match t with
  | FORMED => p <= p' <= 1
  | CHAOS => 0 <= p' <= p
  end.

(** The arrays of the data hold at least [n] entries each. *)
Definition covers (data : Ornaments.Data) (n : nat) : Prop :=
  (n <= length (Ornaments.chaosPos data))%nat /\
  (n <= length (Ornaments.targetPos data))%nat /\
  (n <= length (Ornaments.rotations data))%nat.

(** The two ends between which ornament [i] is placed at [time]: its
    chaos and target positions with the wobble of the current state. *)
Definition ornamentEnds (t : TreeState) (time : R) (i : nat)
    (chaos target : Vector3) : Vector3 * Vector3 :=
  if isFormed t
  then (chaos,
        mkVector3 (vx target) (vy target + sin (time * 2 + INR i) * 0.1)
                  (vz target))
  else (mkVector3 (vx chaos + sin (time + INR i) * 0.05)
                  (vy chaos + cos (time + INR i) * 0.05) (vz chaos),
        target).

(** Where the data memo may put an ornament: the target not above the
    ceiling and inside the widened cone, the chaos point inside the
    sphere of radius 20, the rotation a turn of less than [PI] around
    X and Y. *)
Definition targetOk (t : Vector3) : Prop :=
  0 <= vy t <= Ornaments.ceiling /\
  sqrt (vx t * vx t + vz t * vz t)
  <= 1.1 * (CONFIG.treeRadius * 0.9) * (1 - vy t / CONFIG.treeHeight).

Definition rotationOk (r : Euler) : Prop :=
  0 <= ex r < PI /\ 0 <= ey r < PI /\ ez r = 0.

Definition ornamentsPlaced (data : Ornaments.Data) : Prop :=
  Forall targetOk (Ornaments.targetPos data) /\
  Forall (fun c => norm c <= 20) (Ornaments.chaosPos data) /\
  Forall rotationOk (Ornaments.rotations data).

(** Ornament data as the memo builds it: [n] entries in each array. *)
Definition wellFormed (data : Ornaments.Data) (n : nat) : Prop :=
  length (Ornaments.chaosPos data) = n /\
  length (Ornaments.targetPos data) = n /\
  length (Ornaments.rotations data) = n.

(** ** Sample inputs *)

(** A hand of 21 landmarks: the wrist at the centre of the frame and
    every other landmark at distance [d] to its right. *)
Definition syntheticHand (d : R) : list Landmark :=
  mkLandmark 0.5 0.5 :: replicate 20 (mkLandmark (0.5 + d) 0.5).

(** A landmarker that reports the given hands on every frame. *)
Definition constantLandmarker (hands : option (list (list Landmark)))
    : HandLandmarker :=
  mkHandLandmarker (fun _ _ => InferenceResults hands).

(** A service that is ready and looks at a decoded frame not yet
    processed. *)
Definition readyService (lm : HandLandmarker) : VisionService :=
  {| handLandmarker := Some lm;
     video := Some (mkVideo 640 480 1);
     lastVideoTime := -1;
     isRunning := true |}.

(** Ornament data with [n] entries, every ornament at the origin. *)
Definition sampleData (n : nat) : Ornaments.Data :=
  Ornaments.mkData (replicate n origin) (replicate n origin)
                   (replicate n (mkEuler 0 0 0)).

(** A photo with the given id, hung at height [y] on the axis. *)
Definition samplePhoto (name : string) (y : R) : PolaroidPhotos.Photo :=
  PolaroidPhotos.mkPhoto name name name 0 (mkVector3 0 y 0) origin
    (PolaroidPhotos.mkQuaternion 0 0 0 1).

(** * Properties *)

(** ** Comparisons *)

Lemma Rgtb_true (a b : R) : Rgtb a b = true <-> a > b.
Proof.
  unfold Rgtb. destruct (Rlt_dec b a) as [H | H]; split; intros K;
    try reflexivity; try discriminate; lra.
Qed.

Lemma Rgtb_false (a b : R) : Rgtb a b = false <-> a <= b.
Proof.
  unfold Rgtb. destruct (Rlt_dec b a) as [H | H]; split; intros K;
    try reflexivity; try discriminate; lra.
Qed.

Lemma Reqb_true (a b : R) : Reqb a b = true <-> a = b.
Proof.
  unfold Reqb. destruct (Req_dec_T a b); split; intros K;
    try reflexivity; try discriminate; tauto.
Qed.

Lemma Reqb_false (a b : R) : Reqb a b = false <-> a <> b.
Proof.
  unfold Reqb. destruct (Req_dec_T a b); split; intros K;
    try reflexivity; try discriminate; tauto.
Qed.

(** ** The scene state machine (App.tsx, [loop]) *)

Lemma onResult_null (a : App) : onResult None a = a.
Proof. reflexivity. Qed.

Lemma onResult_treeState (r : Reading) (a : App) :
  treeState (onResult (Some r) a) =
  if r_detected r then (if r_isOpen r then CHAOS else FORMED) else treeState a.
Proof.
  unfold onResult. destruct (r_detected r), (r_isOpen r); reflexivity.
Qed.

Lemma onResult_gesture (r : Reading) (a : App) :
  gesture (onResult (Some r) a) =
  Some (mkHandGesture (r_isOpen r) (r_x r, r_y r) (r_detected r)).
Proof.
  unfold onResult. destruct (r_detected r), (r_isOpen r); reflexivity.
Qed.

(** The manual overrides force the state whatever it was. *)
Lemma onClick_treeState (c : Click) (a : App) :
  treeState (onClick c a) = match c with UNLEASH => CHAOS | FORM => FORMED end.
Proof. destruct c; reflexivity. Qed.

(** A running loop applies [onResult] to what [detect] gave and asks
    for the next frame. *)
Lemma loop_running (now : R) (w : World) :
  isRunning (service w) = true ->
  loop now w =
  {| app := setRequestRef (Some (S (frames w)))
              (onResult (fst (detect now (service w))) (app w));
     service := snd (detect now (service w));
     frames := S (frames w) |}.
Proof.
  intros H. unfold loop. rewrite H.
  destruct (detect now (service w)) as [result s']. reflexivity.
Qed.

Lemma loop_stopped (now : R) (w : World) :
  isRunning (service w) = false -> loop now w = w.
Proof. intros H. unfold loop. rewrite H. reflexivity. Qed.


(** ** The gesture classifier (services/vision.ts, [detect]) *)

Lemma sq_pow2 (a : R) : a ^ 2 = a * a.
Proof. simpl. ring. Qed.

Section Hand.

Variable landmarks : list Landmark.
Variables wrist t4 t8 t12 t16 t20 : Landmark.
Hypothesis Hwrist : landmarks !! 0%nat = Some wrist.
Hypothesis H4 : landmarks !! 4%nat = Some t4.
Hypothesis H8 : landmarks !! 8%nat = Some t8.
Hypothesis H12 : landmarks !! 12%nat = Some t12.
Hypothesis H16 : landmarks !! 16%nat = Some t16.
Hypothesis H20 : landmarks !! 20%nat = Some t20.

Lemma addTipDist_found (total : R) (idx : nat) (tip : Landmark) :
  landmarks !! idx = Some tip ->
  addTipDist landmarks (landmarks !! 0%nat) (Some total) idx
  = Some (total + dist_xy wrist tip).
Proof using Hwrist.
  intros H. unfold addTipDist, dist_xy. rewrite H, Hwrist. cbn.
  do 3 f_equal. ring.
Qed.

Lemma totalDist_tips :
  foldl (addTipDist landmarks (landmarks !! 0%nat)) (Some 0) tips
  = Some (5 * avgTipDist wrist t4 t8 t12 t16 t20).
Proof using Hwrist H4 H8 H12 H16 H20.
  unfold tips. cbn [foldl].
  rewrite (addTipDist_found _ _ _ H4), (addTipDist_found _ _ _ H8),
    (addTipDist_found _ _ _ H12), (addTipDist_found _ _ _ H16),
    (addTipDist_found _ _ _ H20).
  f_equal. unfold avgTipDist. field.
Qed.

Lemma classify_hand :
  exists x y : R,
    classify landmarks =
    Some (mkReading (Rgtb (avgTipDist wrist t4 t8 t12 t16 t20) 0.25) x y true).
Proof using Hwrist H4 H8 H12 H16 H20.
  unfold classify. rewrite totalDist_tips. cbn.
  eexists _, _. do 2 f_equal.
  replace (5 * avgTipDist wrist t4 t8 t12 t16 t20 / (1 + 1 + 1 + 1 + 1))
    with (avgTipDist wrist t4 t8 t12 t16 t20) by (field).
  reflexivity.
Qed.

End Hand.





(** ** Null results of [detect] *)

Lemma detect_ready (now : R) (s : VisionService) (lm : HandLandmarker)
    (v : HTMLVideoElement) :
  handLandmarker s = Some lm -> video s = Some v -> isRunning s = true ->
  fst (detect now s) =
  if ((videoWidth v =? 0) || (videoHeight v =? 0))%nat then None
  else if Reqb (currentTime v) (lastVideoTime s) then None
       else tryDetect lm v now.
Proof.
  intros Hlm Hv Hrun. unfold detect. rewrite Hlm, Hv, Hrun.
  destruct ((videoWidth v =? 0) || (videoHeight v =? 0))%nat; [reflexivity |].
  destruct (Reqb (currentTime v) (lastVideoTime s)); reflexivity.
Qed.

Lemma detect_notReady (now : R) (s : VisionService) :
  notReady s -> detect now s = (None, s).
Proof.
  unfold notReady, detect. intros [H | [H | H]]; rewrite H.
  - reflexivity.
  - destruct (handLandmarker s); reflexivity.
  - destruct (handLandmarker s), (video s); reflexivity.
Qed.

Lemma ready_or_not (s : VisionService) :
  notReady s \/
  exists lm v, handLandmarker s = Some lm /\ video s = Some v /\ isRunning s = true.
Proof.
  unfold notReady.
  destruct (handLandmarker s) as [lm |]; [| tauto].
  destruct (video s) as [v |]; [| tauto].
  destruct (isRunning s); [| tauto].
  right. exists lm, v. tauto.
Qed.






(** The app keeps a running service ready: whenever [isRunning] is set
    the landmarker and the video element are there, so the guard at the
    top of [detect] passes in every run of [loop] that reaches it. *)
Lemma runningIsReady_fresh :
  runningIsReady (mkVisionService None None (-1) false).
Proof. intros H. discriminate H. Qed.

Lemma runningIsReady_detect (now : R) (s : VisionService) :
  runningIsReady s -> runningIsReady (snd (detect now s)).
Proof.
  intros H.
  assert (handLandmarker (snd (detect now s)) = handLandmarker s /\
          video (snd (detect now s)) = video s /\
          isRunning (snd (detect now s)) = isRunning s) as (E1 & E2 & E3).
  { unfold detect.
    destruct (handLandmarker s) as [lm |] eqn:Hlm;
      [| cbn; rewrite Hlm; tauto].
    destruct (video s) as [v |] eqn:Hv; [| cbn; rewrite Hlm, Hv; tauto].
    destruct (isRunning s) eqn:Hrun;
      [| cbn; rewrite Hlm, Hv, Hrun; tauto].
    destruct ((videoWidth v =? 0) || (videoHeight v =? 0))%nat;
      [cbn; rewrite Hlm, Hv, Hrun; tauto |].
    destruct (Reqb (currentTime v) (lastVideoTime s)); cbn;
      rewrite ?Hlm, ?Hv, ?Hrun; tauto. }
  unfold runningIsReady. rewrite E1, E2, E3. exact H.
Qed.

Lemma runningIsReady_loop (now : R) (w : World) :
  runningIsReady (service w) -> runningIsReady (service (loop now w)).
Proof.
  intros H. destruct (isRunning (service w)) eqn:Hrun.
  - rewrite (loop_running now w Hrun). cbn [service].
    apply runningIsReady_detect. exact H.
  - rewrite (loop_stopped now w Hrun). exact H.
Qed.

Lemma runningIsReady_onStartError (e : JsError) (w : World) :
  runningIsReady (service w) -> runningIsReady (service (onStartError e w)).
Proof.
  intros H. unfold onStartError.
  destruct (cameraRelated (orElse (e_name e) "")); exact H.
Qed.

Lemma runningIsReady_startExperience (b : Browser) (now : R) (w : World) :
  runningIsReady (service w) ->
  runningIsReady (service (startExperience b now w)).
Proof.
  intros H. unfold startExperience.
  destruct (hasGetUserMedia b); cbn [negb]; [| exact H].
  destruct (createLandmarker b) as [lm | e]; cbn [initialize];
    [| apply runningIsReady_onStartError; exact H].
  destruct (videoRef b) as [el |].
  - destruct (getUserMedia b) as [u | e]; cbn [startCamera].
    + apply runningIsReady_loop. cbn. intros _.
      split; eexists; reflexivity.
    + apply runningIsReady_onStartError. cbn. intros Hrun.
      split; eexists; reflexivity.
  - apply runningIsReady_loop. cbn. intros Hrun.
    destruct (H Hrun) as [_ Hv]. split; [eexists; reflexivity | exact Hv].
Qed.

Lemma runningIsReady_cleanup (w : World) :
  runningIsReady (service (cleanup w)).
Proof. intros H. discriminate H. Qed.



(** ** The reading for a frame without a hand *)

(** C10: on a new frame where the inference succeeds without a hand,
    [detect] returns exactly (isOpen false, x 0, y 0, detected false);
    the caller stores this reading as its gesture while the tree state
    stays as it was. *)
Theorem no_hand_reading :
  forall (now : R) (w : World) (lm : HandLandmarker) (v : HTMLVideoElement),
    handLandmarker (service w) = Some lm ->
    video (service w) = Some v ->
    isRunning (service w) = true ->
    videoWidth v <> 0%nat ->
    videoHeight v <> 0%nat ->
    currentTime v <> lastVideoTime (service w) ->
    detectForVideo lm v now = InferenceResults None \/
    detectForVideo lm v now = InferenceResults (Some []) ->
    fst (detect now (service w)) = Some (mkReading false 0 0 false) /\
    lastVideoTime (snd (detect now (service w))) = currentTime v /\
    gesture (app (loop now w)) = Some (mkHandGesture false (0, 0) false) /\
    treeState (app (loop now w)) = treeState (app w).
Proof.
  intros now w lm v Hlm Hv Hrun Hw Hh Ht Hinf.
  assert (fst (detect now (service w)) = Some (mkReading false 0 0 false))
    as Hd.
  { rewrite (detect_ready now _ lm v Hlm Hv Hrun).
    apply Nat.eqb_neq in Hw, Hh. rewrite Hw, Hh. cbn.
    apply Reqb_false in Ht. rewrite Ht.
    unfold tryDetect. destruct Hinf as [-> | ->]; reflexivity. }
  split; [exact Hd |]. split.
  - unfold detect. rewrite Hlm, Hv, Hrun.
    apply Nat.eqb_neq in Hw, Hh. rewrite Hw, Hh. cbn.
    apply Reqb_false in Ht. rewrite Ht. reflexivity.
  - rewrite (loop_running now w Hrun), Hd. cbn. tauto.
Qed.

Lemma no_hand_reading_witness :
  let w := mkWorld (setTreeState FORMED initialApp)
             (readyService (constantLandmarker (Some []))) 0 in
  fst (detect 0 (service w)) = Some (mkReading false 0 0 false) /\
  gesture (app (loop 0 w)) = Some (mkHandGesture false (0, 0) false) /\
  treeState (app (loop 0 w)) = FORMED.
Proof.
  cbn zeta.
  assert (1 <> -1) as Hne by lra.
  destruct (no_hand_reading 0
    (mkWorld (setTreeState FORMED initialApp)
       (readyService (constantLandmarker (Some []))) 0)
    (constantLandmarker (Some [])) (mkVideo 640 480 1)
    eq_refl eq_refl eq_refl (fun H => O_S _ (eq_sym H))
    (fun H => O_S _ (eq_sym H)) Hne (or_intror eq_refl))
    as (Hd & _ & Hg & Ht).
  split; [exact Hd |]. split; [exact Hg | exact Ht].
Defined.

(** ** Failures of [startExperience] *)

Lemma cameraRelated_names (n : string) :
  cameraRelated n = true <-> In n cameraErrorNames.
Proof.
  unfold cameraRelated, cameraErrorNames. cbn [In].
  rewrite !orb_true_iff, !String.eqb_eq.
  split; intros H; repeat destruct H as [H | H]; subst; tauto.
Qed.

Lemma orElse_empty_default (x : option string) :
  orElse x "" = match x with Some s => s | None => ""%string end.
Proof.
  destruct x as [s |]; [| reflexivity]. cbn.
  destruct (String.eqb s "") eqn:E; [| reflexivity].
  apply String.eqb_eq in E. congruence.
Qed.

Lemma orElse_nonempty (x : option string) (d : string) :
  d <> ""%string -> orElse x d <> ""%string.
Proof.
  intros Hd. destruct x as [s |]; [| exact Hd]. cbn.
  destruct (String.eqb s "") eqn:E; [exact Hd |].
  apply String.eqb_neq in E. exact E.
Qed.

(** What [startExperience] comes to when it catches [e]: the world
    before the call with the loading flags set, then the handler. *)
Lemma startExperience_catches (b : Browser) (now : R) (w : World)
    (e : JsError) :
  initFails b e ->
  exists s',
    isRunning s' = isRunning (service w) /\
    startExperience b now w =
    onStartError e {| app := setErrorMsg "" (setAppState LOADING (app w));
                      service := s'; frames := frames w |}.
Proof.
  intros (Hmedia & [Hinit | (lm & el & Hinit & Hvideo & Hcam)]);
    unfold startExperience; rewrite Hmedia, Hinit; cbn.
  - exists (service w). split; reflexivity.
  - rewrite Hvideo, Hcam. cbn. eexists. split; [| reflexivity]. reflexivity.
Qed.

(** C5: when initialisation throws an error named NotFoundError,
    NotAllowedError, NotReadableError, OverconstrainedError or
    SecurityError, the app is RUNNING with an empty error message, the
    service is not started and no frame is requested; for any other
    thrown value the app is in ERROR, shows a non-empty message with a
    retry action that reloads, and likewise starts nothing. *)
Theorem startExperience_failure :
  forall (b : Browser) (now : R) (w : World) (e : JsError),
    initFails b e ->
    let w' := startExperience b now w in
    (isRunning (service w') = isRunning (service w) /\
     requestRef (app w') = requestRef (app w) /\
     frames w' = frames w /\
     treeState (app w') = treeState (app w))
    /\ ((exists n, e_name e = Some n /\ In n cameraErrorNames) ->
        appState (app w') = RUNNING /\
        errorMsg (app w') = ""%string /\
        overlay (app w') =
          Some (Controls (CallSetTreeState CHAOS) (CallSetTreeState FORMED)))
    /\ (~ (exists n, e_name e = Some n /\ In n cameraErrorNames) ->
        appState (app w') = ERROR /\
        errorMsg (app w') <> ""%string /\
        overlay (app w') = Some (ErrorPanel (errorMsg (app w')) CallReload)).
Proof.
  intros b now w e Hfail w'.
  destruct (startExperience_catches b now w e Hfail) as (s' & Hs' & Hw').
  subst w'. rewrite Hw'. unfold onStartError.
  rewrite orElse_empty_default.
  split; [| split].
  - destruct (cameraRelated _); cbn; tauto.
  - intros (n & Hn & Hin). rewrite Hn.
    apply cameraRelated_names in Hin. rewrite Hin. cbn. tauto.
  - intros Hother.
    destruct (cameraRelated _) eqn:Ec.
    + exfalso. apply cameraRelated_names in Ec.
      destruct (e_name e) as [n |] eqn:En.
      * apply Hother. exists n. tauto.
      * cbn in Ec. repeat (destruct Ec as [Ec | Ec]; [discriminate Ec |]).
        exact Ec.
    + cbn. split; [reflexivity |]. split; [| reflexivity].
      apply orElse_nonempty. discriminate.
Qed.

Lemma startExperience_failure_witness :
  let w := mkWorld initialApp (mkVisionService None None (-1) false) 0 in
  let denied := mkJsError (Some "NotAllowedError"%string)
                          (Some "Permission denied"%string) in
  let broken := mkJsError (Some "TypeError"%string) None in
  let lm := constantLandmarker None in
  let el := mkVideo 0 0 0 in
  appState (app (startExperience
                   (mkBrowser true (Resolves lm) (Some el) (Rejects denied))
                   0 w)) = RUNNING /\
  overlay (app (startExperience
                  (mkBrowser true (Rejects broken) (Some el) (Resolves tt))
                  0 w))
  = Some (ErrorPanel "Failed to start camera or load AI models." CallReload).
Proof.
  cbn zeta. split.
  - refine (proj1 (proj1 (proj2 (startExperience_failure
      (mkBrowser true (Resolves (constantLandmarker None))
         (Some (mkVideo 0 0 0))
         (Rejects (mkJsError (Some "NotAllowedError"%string)
                             (Some "Permission denied"%string))))
      0 (mkWorld initialApp (mkVisionService None None (-1) false) 0)
      (mkJsError (Some "NotAllowedError"%string)
                 (Some "Permission denied"%string)) _)) _)).
    + split; [reflexivity |]. right. eexists _, _.
      split; [reflexivity |]. split; reflexivity.
    + eexists. split; [reflexivity |]. cbn. tauto.
  - reflexivity.
Defined.

(** ** The point samplers (utils/math.ts) *)

Lemma Rpower_third_pos (x : R) : 0 < Rpower x (/ 3).
Proof. unfold Rpower. apply exp_pos. Qed.

Lemma Rpower_third_cube (x : R) : 0 < x -> Rpower x (/ 3) ^ 3 = x.
Proof.
  intros Hx. rewrite <- (Rpower_pow 3 _ (Rpower_third_pos x)).
  rewrite Rpower_mult.
  replace (/ 3 * INR 3) with 1 by (simpl; field).
  apply Rpower_1. exact Hx.
Qed.

(** [cbrt] is the cube root on all of the reals. *)
Lemma cbrt_cube (x : R) : cbrt x ^ 3 = x.
Proof.
  unfold cbrt. destruct (Rlt_dec 0 x) as [Hpos | Hnpos].
  - apply Rpower_third_cube. exact Hpos.
  - destruct (Rlt_dec x 0) as [Hneg | Hnneg].
    + replace ((- Rpower (- x) (/ 3)) ^ 3) with (- (Rpower (- x) (/ 3) ^ 3))
        by ring.
      rewrite Rpower_third_cube by lra. ring.
    + replace x with 0 by lra. ring.
Qed.

Lemma cbrt_unit (w : R) : 0 <= w < 1 -> 0 <= cbrt w < 1.
Proof.
  intros [H0 H1]. unfold cbrt. destruct (Rlt_dec 0 w) as [Hpos | Hnpos].
  - split; [left; apply Rpower_third_pos |].
    unfold Rpower. rewrite <- exp_0. apply exp_increasing.
    assert (ln w < 0) as Hln.
    { rewrite <- ln_1. apply ln_increasing; lra. }
    nra.
  - destruct (Rlt_dec w 0); lra.
Qed.

Lemma sqrt_unit (w : R) : 0 <= w < 1 -> 0 <= sqrt w < 1.
Proof.
  intros [H0 H1]. split; [apply sqrt_pos |].
  rewrite <- sqrt_1. apply sqrt_lt_1_alt. lra.
Qed.

Lemma sin_cos_sq (a : R) : sin a * sin a + cos a * cos a = 1.
Proof. exact (sin2_cos2 a). Qed.

(** The horizontal distance of a point in polar form is its radius. *)
Lemma polar_radius (r a : R) :
  0 <= r -> sqrt (r * cos a * (r * cos a) + r * sin a * (r * sin a)) = r.
Proof.
  intros Hr.
  replace (r * cos a * (r * cos a) + r * sin a * (r * sin a))
    with (r * r * (sin a * sin a + cos a * cos a)) by ring.
  rewrite sin_cos_sq, Rmult_1_r. apply sqrt_square. exact Hr.
Qed.

(** The norm of a point in spherical form is its radial distance. *)
Lemma spherical_norm (r phi theta : R) :
  0 <= r ->
  norm (mkVector3 (r * sin phi * cos theta) (r * sin phi * sin theta)
                  (r * cos phi)) = r.
Proof.
  intros Hr. unfold norm. cbn.
  replace (r * sin phi * cos theta * (r * sin phi * cos theta)
           + r * sin phi * sin theta * (r * sin phi * sin theta)
           + r * cos phi * (r * cos phi))
    with (r * r * (sin phi * sin phi
                   * (sin theta * sin theta + cos theta * cos theta)
                   + cos phi * cos phi)) by ring.
  rewrite sin_cos_sq, Rmult_1_r, sin_cos_sq, Rmult_1_r.
  apply sqrt_square. exact Hr.
Qed.

(** C6: with draws in [0,1), [getConePoint] takes y = u * height in
    [0, height), the bound (1 - y/height) * maxRadius, the radius
    sqrt(w) times that bound and the angle a * 2π in [0, 2π); it returns
    (r cos θ, y - height/2 + verticalBias, r sin θ), whose distance
    from the axis, sqrt(x² + z²), is at most the bound. *)
Theorem cone_point_within_radius :
  forall (height maxRadius verticalBias : R) (g : RNG),
    0 < height -> 0 <= maxRadius -> unit_draws g ->
    let u := tape g (cursor g) in
    let a := tape g (S (cursor g)) in
    let w := tape g (S (S (cursor g))) in
    let y := u * height in
    let bound := (1 - y / height) * maxRadius in
    let angle := a * PI * 2 in
    let r := sqrt w * bound in
    let p := fst (getConePoint height maxRadius verticalBias g) in
    0 <= y < height /\
    0 <= angle < 2 * PI /\
    0 <= r <= bound /\
    p = mkVector3 (r * cos angle) (y - height / 2 + verticalBias)
                  (r * sin angle) /\
    sqrt (vx p * vx p + vz p * vz p) = r /\
    sqrt (vx p * vx p + vz p * vz p) <= (1 - y / height) * maxRadius /\
    cursor (snd (getConePoint height maxRadius verticalBias g))
    = (cursor g + 3)%nat.
Proof.
  intros height maxRadius verticalBias g Hh Hm Hg u a w y bound angle r p.
  pose proof (Hg (cursor g)) as Hu. fold u in Hu.
  pose proof (Hg (S (cursor g))) as Ha. fold a in Ha.
  pose proof (sqrt_unit w (Hg (S (S (cursor g))))) as Hw.
  pose proof PI_RGT_0 as Hpi.
  assert (y / height = u) as Hyh by (unfold y; field; lra).
  assert (0 <= bound) as Hb by (unfold bound; rewrite Hyh; nra).
  assert (0 <= r <= bound) as Hr by (unfold r; nra).
  assert (p = mkVector3 (r * cos angle) (y - height / 2 + verticalBias)
                        (r * sin angle)) as Hp by reflexivity.
  assert (sqrt (vx p * vx p + vz p * vz p) = r) as Hd.
  { rewrite Hp. cbn. apply polar_radius. lra. }
  split; [unfold y; nra |].
  split; [unfold angle; nra |].
  split; [exact Hr |].
  split; [exact Hp |].
  split; [exact Hd |].
  split; [rewrite Hd; fold bound; lra |].
  cbn. lia.
Qed.

Lemma cone_point_within_radius_witness :
  let g := mkRNG (fun _ => 0.25) 0 in
  let p := fst (getConePoint 12 4 1 g) in
  sqrt (vx p * vx p + vz p * vz p) <= (1 - 0.25 * 12 / 12) * 4.
Proof.
  cbn zeta.
  assert (unit_draws (mkRNG (fun _ => 0.25) 0)) as Hg
      by (intros k; cbn; lra).
  assert (0 < 12) as Hh by lra.
  assert (0 <= 4) as Hm by lra.
  exact (proj1 (proj2 (proj2 (proj2 (proj2 (proj2
    (cone_point_within_radius 12 4 1 (mkRNG (fun _ => 0.25) 0)
       Hh Hm Hg))))))).
Defined.

(** C7: with draws in [0,1), [getRandomSpherePoint] returns the point
    with polar angle φ = acos(2v - 1), azimuth 2πu and radial distance
    cbrt(w) * R in spherical coordinates; its norm is that distance,
    which is at most R. *)
Theorem sphere_point_within_radius :
  forall (radius : R) (g : RNG),
    0 < radius -> unit_draws g ->
    let u := tape g (cursor g) in
    let v := tape g (S (cursor g)) in
    let w := tape g (S (S (cursor g))) in
    let theta := 2 * PI * u in
    let phi := acos (2 * v - 1) in
    let r := cbrt w * radius in
    let p := fst (getRandomSpherePoint radius g) in
    p = mkVector3 (r * sin phi * cos theta) (r * sin phi * sin theta)
                  (r * cos phi) /\
    (-1 <= 2 * v - 1 < 1 /\ cos phi = 2 * v - 1 /\ 0 <= phi <= PI) /\
    (cbrt w ^ 3 = w /\ 0 <= r < radius) /\
    norm p = r /\
    norm p <= radius /\
    cursor (snd (getRandomSpherePoint radius g)) = (cursor g + 3)%nat.
Proof.
  intros radius g HR Hg u v w theta phi r p.
  pose proof (Hg (S (cursor g))) as Hv. fold v in Hv.
  pose proof (cbrt_unit w (Hg (S (S (cursor g))))) as Hw.
  assert (0 <= r < radius) as Hr by (unfold r; nra).
  assert (p = mkVector3 (r * sin phi * cos theta) (r * sin phi * sin theta)
                        (r * cos phi)) as Hp by reflexivity.
  assert (norm p = r) as Hn by (rewrite Hp; apply spherical_norm; lra).
  split; [exact Hp |].
  split.
  { split; [lra |]. split; [apply cos_acos; lra | apply acos_bound]. }
  split; [split; [apply cbrt_cube | exact Hr] |].
  split; [exact Hn |].
  split; [rewrite Hn; lra |].
  cbn. lia.
Qed.

Lemma sphere_point_within_radius_witness :
  norm (fst (getRandomSpherePoint 15 (mkRNG (fun _ => 0.5) 0))) <= 15.
Proof.
  assert (unit_draws (mkRNG (fun _ => 0.5) 0)) as Hg
      by (intros k; cbn; lra).
  assert (0 < 15) as HR by lra.
  exact (proj1 (proj2 (proj2 (proj2 (proj2
    (sphere_point_within_radius 15 (mkRNG (fun _ => 0.5) 0) HR Hg)))))).
Defined.

(** ** Progress relaxation *)

(** The closed form of [n] updates. *)
Lemma relax_iter (dest speed p : R) (n : nat) :
  Nat.iter n (relax dest speed) p = dest + (p - dest) * (1 - speed) ^ n.
Proof.
  induction n as [| n IH].
  - simpl. ring.
  - rewrite Nat.iter_succ, IH. unfold relax. simpl. ring.
Qed.

(** From 0 towards 1: after [n] updates, [1 - (1 - speed)^n]. *)
Lemma relax_iter_from_0 (speed : R) (n : nat) :
  Nat.iter n (relax 1 speed) 0 = 1 - (1 - speed) ^ n.
Proof. rewrite relax_iter. ring. Qed.

(** One update moves towards the destination without passing it. *)
Lemma relax_between (dest speed p : R) :
  0 <= speed <= 1 ->
  (p <= dest -> p <= relax dest speed p <= dest) /\
  (dest <= p -> dest <= relax dest speed p <= p).
Proof. intros Hs. unfold relax. split; intros H; nra. Qed.

(** With a destination of 0 or 1, progress stays in [0, 1]. *)
Lemma relax_unit (t : TreeState) (speed p : R) :
  0 <= speed <= 1 -> 0 <= p <= 1 -> 0 <= relax (destOf t) speed p <= 1.
Proof.
  intros Hs Hp. unfold relax, destOf. destruct (isFormed t); nra.
Qed.

Lemma relax_iter_unit (t : TreeState) (speed p : R) (n : nat) :
  0 <= speed <= 1 -> 0 <= p <= 1 ->
  0 <= Nat.iter n (relax (destOf t) speed) p <= 1.
Proof.
  intros Hs Hp. induction n as [| n IH].
  - exact Hp.
  - rewrite Nat.iter_succ. apply relax_unit; assumption.
Qed.

(** The topper updates its progress once per frame. *)
Lemma Topper_frame_progress (t : TreeState) (chaos : Vector3) (time : R)
    (m : Object3D) :
  userData_progress (Topper.frame t chaos time m)
  = Some (relax (destOf t) 0.02 (progressOr0 (userData_progress m))).
Proof. reflexivity. Qed.

(** The foliage updates [uProgress] once per frame: over the reals
    [lerp] is the same recurrence. *)
Lemma lerp_relax (x y t : R) : lerp x y t = relax y t x.
Proof. unfold lerp, relax. ring. Qed.

Lemma Foliage_frame_progress (t : TreeState) (time : R) (l : loc)
    (σ : Store) (u0 t0 : R) :
  σ !! l = Some (ShaderUniforms u0 t0) ->
  Foliage.useFrame t time (Some l) σ
  = <[l := ShaderUniforms (relax (destOf t) 0.02 u0) time]> σ.
Proof.
  intros H. unfold Foliage.useFrame. rewrite H, lerp_relax.
  unfold destOf, Foliage.speed. destruct (isFormed t).
  - replace 1.0 with 1 by lra. reflexivity.
  - replace 0.0 with 0 by lra. reflexivity.
Qed.

(** At progress 0 the shader leaves a particle at its chaos position. *)
Lemma Foliage_vertexPos_chaos (uTime : R) (aChaosPos aTargetPos : Vector3) :
  Foliage.vertexPos 0 uTime aChaosPos aTargetPos = Some aChaosPos.
Proof.
  unfold Foliage.vertexPos, Foliage.ease, Foliage.mix.
  assert (Rgtb 0 0.8 = false) as -> by (apply Rgtb_false; lra).
  destruct (Rlt_dec 0 0.5) as [_ | H]; [| lra].
  destruct aChaosPos as [x y z]. cbn. do 2 f_equal; ring.
Qed.

(** The photo group updates its ref once per frame. *)
Lemma PolaroidPhotos_frame_progress (t : TreeState) (l : loc) (σ : Store)
    (p0 : R) :
  σ !! l = Some (NumberRef p0) ->
  PolaroidPhotos.useFrame t l σ = <[l := NumberRef (relax (destOf t) 0.02 p0)]> σ.
Proof. intros H. unfold PolaroidPhotos.useFrame. rewrite H. reflexivity. Qed.

(** The ornaments update the progress of their mesh once per instance. *)
Lemma Ornaments_instanceStep_progress (ty : Ornaments.OrnamentType)
    (t : TreeState) (scale : R) (data : Ornaments.Data) (time : R)
    (m m' : Object3D) (i : nat) :
  Ornaments.instanceStep ty t scale data time m i = Some m' ->
  userData_progress m'
  = Some (relax (destOf t) (Ornaments.speed ty)
                (progressOr0 (userData_progress m))).
Proof.
  unfold Ornaments.instanceStep. intros H.
  destruct (Ornaments.targetPos data !! i); [| discriminate H].
  destruct (Ornaments.chaosPos data !! i); [| discriminate H].
  destruct (Ornaments.rotations data !! i); [| discriminate H].
  cbn in H. injection H as <-. reflexivity.
Qed.

Lemma Ornaments_instanceStep_total (ty : Ornaments.OrnamentType)
    (t : TreeState) (scale : R) (data : Ornaments.Data) (time : R)
    (m : Object3D) (n i : nat) :
  wellFormed data n -> (i < n)%nat ->
  exists m', Ornaments.instanceStep ty t scale data time m i = Some m'.
Proof.
  intros (Hc & Ht & Hr) Hi. unfold Ornaments.instanceStep.
  destruct (lookup_lt_is_Some_2 (Ornaments.targetPos data) i) as [x ->];
    [lia |].
  destruct (lookup_lt_is_Some_2 (Ornaments.chaosPos data) i) as [y ->];
    [lia |].
  destruct (lookup_lt_is_Some_2 (Ornaments.rotations data) i) as [z ->];
    [lia |].
  cbn. eexists. reflexivity.
Qed.

(** The loop over the instances [a, a + k) of well-formed data runs
    through and leaves [k] updates on the progress of the mesh. *)
Lemma Ornaments_loop_progress (ty : Ornaments.OrnamentType) (t : TreeState)
    (scale : R) (data : Ornaments.Data) (time : R) (n k a : nat)
    (m : Object3D) :
  wellFormed data n -> (a + k <= n)%nat ->
  exists m',
    foldl (fun acc i =>
             m' ← acc; Ornaments.instanceStep ty t scale data time m' i)
          (Some m) (seq a k) = Some m' /\
    progressOr0 (userData_progress m')
    = Nat.iter k (relax (destOf t) (Ornaments.speed ty))
               (progressOr0 (userData_progress m)).
Proof.
  intros Hwf. revert a m. induction k as [| k IH]; intros a m Hk.
  - exists m. split; reflexivity.
  - cbn [seq foldl].
    destruct (Ornaments_instanceStep_total ty t scale data time m n a Hwf)
      as [m1 H1]; [lia |].
    cbn [mbind option_bind]. rewrite H1.
    destruct (IH (S a) m1) as (m' & Hfold & Hp); [lia |].
    exists m'. split; [exact Hfold |].
    rewrite Hp, (Ornaments_instanceStep_progress _ _ _ _ _ _ _ _ H1).
    cbn [progressOr0]. rewrite <- Nat.iter_succ_r. reflexivity.
Qed.

(** One frame of an [Ornaments] mesh: as many updates as instances. *)
Lemma Ornaments_frame_progress (ty : Ornaments.OrnamentType) (t : TreeState)
    (scale : R) (data : Ornaments.Data) (time : R) (l : loc) (σ : Store)
    (m : Object3D) :
  wellFormed data (Ornaments.count ty) ->
  σ !! l = Some (Obj3D m) ->
  exists σ',
    Ornaments.useFrame ty t scale data time (Some l) σ = Some σ' /\
    progressAt l σ'
    = Nat.iter (Ornaments.count ty) (relax (destOf t) (Ornaments.speed ty))
               (progressAt l σ).
Proof.
  intros Hwf Hl. unfold Ornaments.useFrame, Ornaments.instances.
  rewrite Hl.
  destruct (Ornaments_loop_progress ty t scale data time
              (Ornaments.count ty) (Ornaments.count ty) 0 m Hwf)
    as (m' & Hfold & Hp); [lia |].
  rewrite Hfold. cbn [mbind option_bind]. eexists. split; [reflexivity |].
  unfold progressAt. rewrite lookup_insert_eq, Hl. exact Hp.
Qed.

(** The topper after any number of frames: one update per frame. *)
Lemma Topper_frames_progress (t : TreeState) (chaos : Vector3)
    (times : list R) (m : Object3D) :
  progressOr0 (userData_progress
                 (foldl (fun m time => Topper.frame t chaos time m) m times))
  = Nat.iter (length times) (relax (destOf t) 0.02)
             (progressOr0 (userData_progress m)).
Proof.
  revert m. induction times as [| time times IH]; intros m.
  - reflexivity.
  - cbn [foldl length]. rewrite IH, Topper_frame_progress.
    cbn [progressOr0]. rewrite <- Nat.iter_succ_r. reflexivity.
Qed.

(** From a fresh mesh towards FORMED: 0.02 after one frame and
    [1 - (1 - 0.02)^N] after [N], never leaving [0, 1] and never
    moving away from 1. *)
Lemma Topper_forming (chaos : Vector3) (times : list R) (time : R) :
  let p := fun ts => progressOr0 (userData_progress
             (foldl (fun m time => Topper.frame FORMED chaos time m)
                    (newMesh 0) ts)) in
  p [time] = 0.02 /\
  p times = 1 - (1 - 0.02) ^ length times /\
  0 <= p times <= 1 /\
  p times <= p (times ++ [time]).
Proof.
  cbn zeta. split; [| split; [| split]].
  - cbn. unfold relax, Topper.speed. lra.
  - rewrite Topper_frames_progress. cbn [newMesh userData_progress progressOr0].
    apply relax_iter_from_0.
  - rewrite Topper_frames_progress. cbn [newMesh userData_progress progressOr0].
    apply (relax_iter_unit FORMED); lra.
  - rewrite foldl_app. cbn [foldl]. rewrite Topper_frame_progress.
    cbn [progressOr0].
    rewrite Topper_frames_progress.
    cbn [newMesh userData_progress progressOr0].
    pose proof (relax_iter_unit FORMED 0.02 0 (length times)) as Hu.
    apply (relax_between 1 0.02); [lra |]. apply Hu; lra.
Qed.

(** C2: a frame of the ball ornaments does not apply the recurrence
    once: on a freshly mounted mesh and a FORMED tree the progress
    after one frame is 1 - (1 - 0.025)^50, one update for each of the 50
    instances, and not the 0.025 of a single update. *)
Theorem ornaments_frame_updates_per_instance :
  exists σ' : Store,
    Ornaments.useFrame Ornaments.ball FORMED 0.25 (sampleData 50) 0
      (Some 1%positive) {[1%positive := Obj3D (newMesh 50)]} = Some σ' /\
    progressAt 1%positive σ' = 1 - (1 - 0.025) ^ 50 /\
    relax 1 0.025 0 = 0.025 /\
    progressAt 1%positive σ' > relax 1 0.025 0.
Proof.
  destruct (Ornaments_frame_progress Ornaments.ball FORMED 0.25
              (sampleData 50) 0 1%positive
              {[1%positive := Obj3D (newMesh 50)]} (newMesh 50))
    as (σ' & Hrun & Hp).
  - unfold wellFormed, sampleData. cbn [Ornaments.chaosPos
      Ornaments.targetPos Ornaments.rotations Ornaments.count].
    rewrite !length_replicate. tauto.
  - apply lookup_singleton_eq.
  - exists σ'. split; [exact Hrun |].
    assert (progressAt 1%positive σ' = 1 - (1 - 0.025) ^ 50) as Hval.
    { rewrite Hp. unfold progressAt at 1. rewrite lookup_singleton_eq.
      cbn [newMesh userData_progress progressOr0 destOf isFormed
           Ornaments.count Ornaments.speed].
      apply relax_iter_from_0. }
    split; [exact Hval |].
    split; [unfold relax; lra |].
    rewrite Hval. unfold relax.
    assert (0 <= (1 - 0.025) ^ 49 < 1) as H49
        by (apply pow_lt_1_compat; [lra | lia]).
    replace ((1 - 0.025) ^ 50) with ((1 - 0.025) * (1 - 0.025) ^ 49)
      by reflexivity.
    nra.
Qed.

(** ** Who owns a progress scalar *)

Lemma alloc_fresh (o : HeapObj) (σ σ' : Store) (l : loc) :
  alloc o σ = (l, σ') -> (l ∉ dom σ) /\ (dom σ' = {[l]} ∪ dom σ).
Proof.
  unfold alloc. intros H. injection H as <- <-.
  split; [apply is_fresh | apply dom_insert_L].
Qed.

(** Mounting gives every animator a location of its own. *)
Lemma mounted_refs_distinct (σ : Store) :
  let refs := (mountScene σ).1 in
  let photosRef := (mountPolaroidPhotos (mountScene σ).2).1 in
  NoDup [foliageShader refs; goldBalls refs; redBalls refs; goldGifts refs;
         topperMesh refs; photosRef].
Proof.
  unfold mountScene, mountPolaroidPhotos.
  generalize (Obj3D (newMesh (Ornaments.count Ornaments.ball))).
  generalize (Obj3D (newMesh (Ornaments.count Ornaments.gift))).
  generalize (Obj3D (newMesh 0)).
  generalize (ShaderUniforms 0 0). generalize (NumberRef 0).
  intros o6 o1 o5 o4 o2.
  destruct (alloc o1 σ) as [f σ1] eqn:E1. cbv beta iota.
  destruct (alloc o2 σ1) as [g σ2] eqn:E2. cbv beta iota.
  destruct (alloc o2 σ2) as [r σ3] eqn:E3. cbv beta iota.
  destruct (alloc o4 σ3) as [b σ4] eqn:E4. cbv beta iota.
  destruct (alloc o5 σ4) as [t σ5] eqn:E5. cbv beta iota.
  cbn [fst snd foliageShader goldBalls redBalls goldGifts topperMesh].
  destruct (alloc o6 σ5) as [p σ6] eqn:E6. cbv beta iota.
  apply alloc_fresh in E1 as [_ D1].
  apply alloc_fresh in E2 as [F2 D2].
  apply alloc_fresh in E3 as [F3 D3].
  apply alloc_fresh in E4 as [F4 D4].
  apply alloc_fresh in E5 as [F5 D5].
  apply alloc_fresh in E6 as [F6 _].
  cbn [fst snd].
  rewrite D1 in F2, D2. rewrite D2 in F3, D3. rewrite D3 in F4, D4.
  rewrite D4 in F5, D5. rewrite D5 in F6.
  clear D1 D2 D3 D4 D5 o1 o2 o4 o5 o6 σ1 σ2 σ3 σ4 σ5 σ6.
  repeat (apply NoDup_cons; split); [.. | apply NoDup_nil_2];
    rewrite ?not_elem_of_cons; set_solver.
Qed.

(** Writing the object at one location leaves the progress read at
    another. *)
Lemma progressAt_insert_ne (l l' : loc) (o : HeapObj) (σ : Store) :
  l <> l' -> progressAt l' (<[l := o]> σ) = progressAt l' σ.
Proof.
  intros Hne. unfold progressAt. rewrite lookup_insert_ne by exact Hne.
  reflexivity.
Qed.

(** C9, as stated, fails for two photo ornaments: both children are
    handed the one ref of their parent, and the update made through the
    ref of the first changes what the second reads. *)
Lemma photos_share_progress :
  exists refA refB : loc,
    PolaroidPhotos.render 1%positive [samplePhoto "p1" 3; samplePhoto "p2" 7]
    = Some [("p1"%string, 0%nat, refA); ("p2"%string, 1%nat, refB)] /\
    PolaroidPhotos.readProgress refB
      (PolaroidPhotos.useFrame FORMED refA {[1%positive := NumberRef 0]})
    <> PolaroidPhotos.readProgress refB {[1%positive := NumberRef 0]}.
Proof.
  exists 1%positive, 1%positive. split; [reflexivity |].
  unfold PolaroidPhotos.useFrame, PolaroidPhotos.readProgress.
  rewrite !lookup_singleton_eq, lookup_insert_eq.
  cbn. unfold relax. lra.
Qed.

(** C9, amended: a progress scalar belongs to an animator component
    (the topper mesh, an ornaments mesh, the foliage material, the ref
    of the photo group) and is shared by the instances that component
    draws.  A frame of one component leaves the progress of every other
    component as it was; a photo is placed from its own data and the
    progress of the ref it was given, and all photos of a group are
    given the same ref. *)
Theorem progress_owned_per_component :
  forall (l l' : loc) (σ : Store),
    l <> l' ->
    (forall t chaos time,
        progressAt l' (Topper.useFrame t chaos time (Some l) σ)
        = progressAt l' σ)
    /\ (forall ty t scale data time σ',
        Ornaments.useFrame ty t scale data time (Some l) σ = Some σ' ->
        progressAt l' σ' = progressAt l' σ)
    /\ (forall t time,
        progressAt l' (Foliage.useFrame t time (Some l) σ) = progressAt l' σ)
    /\ (forall t,
        progressAt l' (PolaroidPhotos.useFrame t l σ) = progressAt l' σ)
    /\ (forall photo i progressRef t time,
        progressAt l' (PolaroidPhotos.photoFrame photo i progressRef t time
                         (Some l) σ)
        = progressAt l' σ)
    /\ (forall photo i t time g,
        σ !! l = Some (Obj3D g) ->
        exists g',
          PolaroidPhotos.photoFrame photo i l' t time (Some l) σ !! l
          = Some (Obj3D g') /\
          o_position g'
          = PolaroidPhotos.photoPosition photo i t time
              (PolaroidPhotos.readProgress l' σ))
    /\ (forall ps children,
        PolaroidPhotos.render l ps = Some children ->
        forall c, c ∈ children -> c.2 = l).
Proof.
  intros l l' σ Hne. repeat split.
  - intros t chaos time. unfold Topper.useFrame.
    destruct (σ !! l) as [[m | u0 t0 | c] |]; try reflexivity.
    apply progressAt_insert_ne. exact Hne.
  - intros ty t scale data time σ'. unfold Ornaments.useFrame.
    destruct (σ !! l) as [[m | u0 t0 | c] |];
      try (intros H; injection H as <-; reflexivity).
    destruct (Ornaments.instances ty t scale data time m (Ornaments.count ty))
      as [m' |]; cbn; [| discriminate].
    intros H. injection H as <-. apply progressAt_insert_ne. exact Hne.
  - intros t time. unfold Foliage.useFrame.
    destruct (σ !! l) as [[m | u0 t0 | c] |]; try reflexivity.
    apply progressAt_insert_ne. exact Hne.
  - intros t. unfold PolaroidPhotos.useFrame.
    destruct (σ !! l) as [[m | u0 t0 | c] |]; try reflexivity.
    apply progressAt_insert_ne. exact Hne.
  - intros photo i progressRef t time. unfold PolaroidPhotos.photoFrame.
    destruct (σ !! l) as [[m | u0 t0 | c] |]; try reflexivity.
    apply progressAt_insert_ne. exact Hne.
  - intros photo i t time g Hg. unfold PolaroidPhotos.photoFrame.
    rewrite Hg, lookup_insert_eq. eexists. split; reflexivity.
  - intros ps children Hr c Hc.
    assert (children
            = imap (fun idx p => (PolaroidPhotos.p_id p, idx, l)) ps) as ->.
    { unfold PolaroidPhotos.render in Hr.
      destruct ps as [| p ps]; [discriminate Hr |].
      injection Hr as <-. reflexivity. }
    apply elem_of_lookup_imap_1 in Hc as (k & p & -> & _). reflexivity.
Qed.

Lemma progress_owned_per_component_witness :
  let σ : Store := {[1%positive := Obj3D (newMesh 0); 2%positive := NumberRef 0.5]} in
  progressAt 2%positive (Topper.useFrame FORMED origin 0 (Some 1%positive) σ)
  = progressAt 2%positive σ.
Proof.
  cbn zeta.
  assert (1%positive <> 2%positive) as Hne by discriminate.
  exact (proj1 (progress_owned_per_component 1%positive 2%positive
                  {[1%positive := Obj3D (newMesh 0);
                    2%positive := NumberRef 0.5]} Hne) FORMED origin 0).
Defined.

(** ** Photo ornaments from the manifest *)

Lemma omap_if_filter {A} (f : A -> bool) (l : list A) :
  omap (fun c => if f c then Some c else None) l = List.filter f l.
Proof.
  induction l as [| c l IH]; [reflexivity |].
  cbn. destruct (f c); cbn; rewrite IH; reflexivity.
Qed.

(** Every image that loads gives one item, every broken one is dropped
    on its own. *)
Lemma preload_length (resolveURL : string -> string)
    (imageLoads : PolaroidPhotos.Item -> bool) (files : list string) :
  (length (PolaroidPhotos.preload resolveURL imageLoads files)
   + length (List.filter (fun c => negb (imageLoads c))
               (PolaroidPhotos.candidates resolveURL files))
   = length files)%nat.
Proof.
  unfold PolaroidPhotos.preload. rewrite omap_if_filter, List.filter_length.
  unfold PolaroidPhotos.candidates. apply length_imap.
Qed.

Lemma loadManifest_bad (f : PolaroidPhotos.Fetch) :
  badManifest f -> PolaroidPhotos.loadManifest f = [].
Proof.
  destruct f as [| ok status body]; [reflexivity |].
  destruct ok; [| reflexivity].
  destruct body as [[| b | n | s | entries | members] |]; cbn;
    try reflexivity.
  - intros [H | H]; [discriminate H | contradiction].
  - destruct (PolaroidPhotos.getProp "files" members)
      as [[| b | n | s | entries | members'] |]; try reflexivity.
    intros [H | H]; [discriminate H | contradiction].
Qed.

Lemma loadManifest_enumerates (f : PolaroidPhotos.Fetch)
    (names : list string) :
  enumerates f names ->
  PolaroidPhotos.loadManifest f = PolaroidPhotos.JString <$> names.
Proof.
  destruct f as [| [|] status [[| b | n | s | entries | members] |]]; cbn;
    try contradiction.
  - intros ->. reflexivity.
  - intros ->. reflexivity.
Qed.

Lemma fileNames_strings (names : list string) :
  PolaroidPhotos.fileNames (PolaroidPhotos.JString <$> names) = Some names.
Proof. apply mapM_fmap_Some. reflexivity. Qed.

Lemma fileNames_Some (files : list PolaroidPhotos.Json)
    (names : list string) :
  PolaroidPhotos.fileNames files = Some names ->
  files = PolaroidPhotos.JString <$> names.
Proof.
  intros H. symmetry.
  apply (mapM_fmap_Some_inv PolaroidPhotos.asString _ _ _ H).
  intros [| b | n | s | entries | members] y E; try discriminate E.
  injection E as ->. reflexivity.
Qed.

(** The effect throws exactly when the list holds an entry that is not
    a string. *)
Lemma fileNames_None (files : list PolaroidPhotos.Json) :
  PolaroidPhotos.fileNames files = None <->
  exists entry, entry ∈ files /\ PolaroidPhotos.asString entry = None.
Proof.
  unfold PolaroidPhotos.fileNames. rewrite mapM_None, Exists_exists.
  reflexivity.
Qed.

(** With names for all entries the photos are those of the images that
    load. *)
Lemma mountPhotos_names (resolveURL : string -> string)
    (imageLoads : PolaroidPhotos.Item -> bool)
    (lookOutward : Vector3 -> PolaroidPhotos.Quaternion)
    (f : PolaroidPhotos.Fetch) (names : list string) (g : RNG) :
  PolaroidPhotos.fileNames (PolaroidPhotos.loadManifest f) = Some names ->
  (PolaroidPhotos.mountPhotos resolveURL imageLoads lookOutward f g).1
  = Some (PolaroidPhotos.photos lookOutward
            (PolaroidPhotos.preload resolveURL imageLoads names) g).1.
Proof.
  intros H. unfold PolaroidPhotos.mountPhotos. rewrite H.
  destruct (PolaroidPhotos.photos lookOutward
              (PolaroidPhotos.preload resolveURL imageLoads names) g).
  reflexivity.
Qed.

Lemma mountPhotos_throws (resolveURL : string -> string)
    (imageLoads : PolaroidPhotos.Item -> bool)
    (lookOutward : Vector3 -> PolaroidPhotos.Quaternion)
    (f : PolaroidPhotos.Fetch) (g : RNG) :
  (PolaroidPhotos.mountPhotos resolveURL imageLoads lookOutward f g).1 = None
  <-> PolaroidPhotos.fileNames (PolaroidPhotos.loadManifest f) = None.
Proof.
  unfold PolaroidPhotos.mountPhotos.
  destruct (PolaroidPhotos.fileNames (PolaroidPhotos.loadManifest f))
    as [names |].
  - destruct (PolaroidPhotos.photos lookOutward
                (PolaroidPhotos.preload resolveURL imageLoads names) g).
    split; intros K; discriminate K.
  - tauto.
Qed.

(** A manifest that enumerates no file names either holds no array or
    holds an array with an entry that is not a string. *)
Lemma invalidManifest_cases (f : PolaroidPhotos.Fetch) :
  invalidManifest f <->
  badManifest f \/
  exists entry, entry ∈ PolaroidPhotos.loadManifest f /\
                PolaroidPhotos.asString entry = None.
Proof.
  rewrite <- fileNames_None. split.
  - intros Hinv.
    destruct (PolaroidPhotos.fileNames (PolaroidPhotos.loadManifest f))
      as [names |] eqn:E; [| right; reflexivity].
    left. apply fileNames_Some in E.
    destruct f as [| [|] status [[| b | n | s | entries | members] |]]; cbn;
      try tauto.
    + exfalso. apply Hinv. exists names. exact E.
    + cbn in E.
      destruct (PolaroidPhotos.getProp "files" members)
        as [[| b | n | s | entries | members'] |] eqn:Ep; try tauto.
      exfalso. apply Hinv. exists names. cbn. rewrite Ep, E. reflexivity.
  - intros [Hbad | Hnone] [names Hen].
    + pose proof (loadManifest_bad f Hbad) as Hnil.
      destruct f as [| [|] status [[| b | n | s | entries | members] |]];
        cbn in Hen, Hbad; try contradiction.
      * destruct Hbad as [K | K]; [discriminate K | contradiction].
      * rewrite Hen in Hbad.
        destruct Hbad as [K | K]; [discriminate K | contradiction].
    + rewrite (loadManifest_enumerates f names Hen), fileNames_strings
        in Hnone.
      discriminate Hnone.
Qed.

Lemma makePhoto_spec (lookOutward : Vector3 -> PolaroidPhotos.Quaternion)
    (n i : nat) (item : PolaroidPhotos.Item) (g : RNG) :
  let r := PolaroidPhotos.makePhoto lookOutward n i item g in
  PolaroidPhotos.p_id r.1 = PolaroidPhotos.id item /\
  PolaroidPhotos.p_src r.1 = PolaroidPhotos.src item /\
  PolaroidPhotos.p_caption r.1 = PolaroidPhotos.caption item /\
  vy (PolaroidPhotos.targetPos r.1) = hangingHeight n i (tape g (cursor g)) /\
  tape r.2 = tape g.
Proof.
  unfold PolaroidPhotos.makePhoto, PolaroidPhotos.getConePointAtY,
    getRandomSpherePoint, rbind, Math_random, rret, hangingHeight.
  cbn -[PolaroidPhotos.yInternalOf clamp cbrt].
  destruct (Rgtb _ 0.001); cbn -[PolaroidPhotos.yInternalOf clamp cbrt];
    repeat split; reflexivity.
Qed.

Lemma clamp_id (v lo hi : R) : lo <= v <= hi -> clamp v lo hi = v.
Proof.
  intros [Hlo Hhi]. unfold clamp.
  rewrite (Rmin_right hi v Hhi). apply Rmax_right. exact Hlo.
Qed.

(** With at most six photos the jitter of 0.6 either way is below half
    a band, so photo [i] hangs strictly inside band [i]. *)
Lemma hangingHeight_in_band (n i : nat) (j : R) :
  (1 <= n <= 6)%nat -> (i < n)%nat -> 0 <= j < 1 ->
  PolaroidPhotos.inBand n i (hangingHeight n i j).
Proof.
  intros [Hn1 Hn6] Hi Hj.
  assert (1 <= INR n <= 6) as Hn.
  { pose proof (le_INR 1 n Hn1) as Ha. pose proof (le_INR n 6 Hn6) as Hb.
    simpl in Ha, Hb. lra. }
  assert (0 <= INR i) as Hi0 by apply pos_INR.
  assert (INR i + 1 <= INR n) as Hi1.
  { rewrite <- S_INR. apply le_INR. lia. }
  assert (INR n * / INR n = 1) as Hq by (apply Rinv_r; lra).
  assert (0 < / INR n) as Hqpos by (apply Rinv_0_lt_compat; lra).
  unfold PolaroidPhotos.inBand, PolaroidPhotos.bandLo, PolaroidPhotos.bandHi,
    hangingHeight, PolaroidPhotos.yInternalOf, PolaroidPhotos.minY,
    PolaroidPhotos.maxY, PolaroidPhotos.verticalBias, PolaroidPhotos.yShift,
    CONFIG.treeHeight, Rdiv.
  rewrite S_INR.
  set (q := / INR n) in *.
  assert (INR i * q + q <= 1) as Htop by nra.
  assert (1 <= 6 * q) as Hq6 by nra.
  assert (0 <= INR i * q) as Hbot by nra.
  set (A := INR i * q) in *.
  replace ((INR i + 0.5) * q) with (A + 0.5 * q) by (unfold A; ring).
  replace ((INR i + 1) * q) with (A + q) by (unfold A; ring).
  rewrite (clamp_id (1.8 + (12 - 2.8 - 1.8) * (A + 0.5 * q) + (j - 0.5) * 1.2))
    by lra.
  rewrite clamp_id by lra.
  lra.
Qed.

(** C8, as stated, fails on an invalid manifest whose array holds an
    entry that is not a string: for the body [[1]] the second effect
    throws instead of leaving the component with zero photos. *)
Lemma photo_manifest_non_string_entry :
  let f := PolaroidPhotos.Response true 200
             (Some (PolaroidPhotos.JArray [PolaroidPhotos.JNumber 1])) in
  let mounted :=
    (PolaroidPhotos.mountPhotos (fun s => s) (fun _ => true)
       (fun _ => PolaroidPhotos.mkQuaternion 0 0 0 1) f
       (mkRNG (fun _ => 0.5) 0)).1 in
  invalidManifest f /\ mounted = None /\ mounted <> Some [].
Proof.
  cbn zeta. split; [| split].
  - intros [names Hen]. cbn in Hen.
    destruct names as [| name names]; discriminate Hen.
  - reflexivity.
  - intros K. discriminate K.
Qed.

(** C8, amended: a manifest that enumerates three file names of which
    exactly one image fails to load gives exactly two photo ornaments,
    those of the two images that loaded, rendered as two children, the
    first hanging inside the lower and the second inside the upper of
    the two height bands; a manifest that is missing or holds no array
    gives no photo ornament, the component renders nothing and no
    effect throws. *)
Theorem photo_manifest_end_to_end :
  forall (resolveURL : string -> string)
         (imageLoads : PolaroidPhotos.Item -> bool)
         (lookOutward : Vector3 -> PolaroidPhotos.Quaternion)
         (g : RNG),
    unit_draws g ->
    (forall (f : PolaroidPhotos.Fetch) (a b c : string) (progressRef : loc),
        enumerates f [a; b; c] ->
        length (List.filter (fun c => negb (imageLoads c))
                  (PolaroidPhotos.candidates resolveURL [a; b; c])) = 1%nat ->
        exists p0 p1 : PolaroidPhotos.Photo,
          (PolaroidPhotos.mountPhotos resolveURL imageLoads lookOutward f g).1
          = Some [p0; p1] /\
          map PolaroidPhotos.p_id [p0; p1]
          = map PolaroidPhotos.id
              (List.filter imageLoads
                 (PolaroidPhotos.candidates resolveURL [a; b; c])) /\
          PolaroidPhotos.render progressRef [p0; p1]
          = Some [(PolaroidPhotos.p_id p0, 0%nat, progressRef);
                  (PolaroidPhotos.p_id p1, 1%nat, progressRef)] /\
          PolaroidPhotos.inBand 2 0 (vy (PolaroidPhotos.targetPos p0)) /\
          PolaroidPhotos.inBand 2 1 (vy (PolaroidPhotos.targetPos p1)) /\
          PolaroidPhotos.bandHi 2 0 = PolaroidPhotos.bandLo 2 1 /\
          vy (PolaroidPhotos.targetPos p0) < vy (PolaroidPhotos.targetPos p1))
    /\ (forall (f : PolaroidPhotos.Fetch) (progressRef : loc),
        badManifest f ->
        (PolaroidPhotos.mountPhotos resolveURL imageLoads lookOutward f g).1
        = Some [] /\
        PolaroidPhotos.render progressRef
          <$> (PolaroidPhotos.mountPhotos resolveURL imageLoads lookOutward
                 f g).1
        = Some None).
Proof.
  intros resolveURL imageLoads lookOutward g Hg. split.
  - intros f a b c progressRef Hen Hfail.
    pose proof (preload_length resolveURL imageLoads [a; b; c]) as Hpre.
    rewrite Hfail in Hpre. cbn [length] in Hpre.
    rewrite (mountPhotos_names resolveURL imageLoads lookOutward f [a; b; c])
      by (rewrite (loadManifest_enumerates f _ Hen);
          apply fileNames_strings).
    assert (PolaroidPhotos.preload resolveURL imageLoads [a; b; c]
            = List.filter imageLoads
                (PolaroidPhotos.candidates resolveURL [a; b; c])) as Hitems
        by apply omap_if_filter.
    rewrite <- Hitems.
    destruct (PolaroidPhotos.preload resolveURL imageLoads [a; b; c])
      as [| i0 [| i1 [| i2 rest]]]; cbn in Hpre; try lia.
    unfold PolaroidPhotos.photos, PolaroidPhotos.photosFrom, rbind, rret.
    cbn [length].
    pose proof (makePhoto_spec lookOutward 2 0 i0 g) as S0. cbn zeta in S0.
    destruct (PolaroidPhotos.makePhoto lookOutward 2 0 i0 g) as [p0 g1].
    cbn [fst snd] in S0. destruct S0 as (Hid0 & _ & _ & Hy0 & Ht0).
    pose proof (makePhoto_spec lookOutward 2 1 i1 g1) as S1. cbn zeta in S1.
    destruct (PolaroidPhotos.makePhoto lookOutward 2 1 i1 g1) as [p1 g2].
    cbn [fst snd] in S1. destruct S1 as (Hid1 & _ & _ & Hy1 & _).
    exists p0, p1. cbn [fst map].
    assert (PolaroidPhotos.inBand 2 0 (vy (PolaroidPhotos.targetPos p0)))
      as B0.
    { rewrite Hy0. apply hangingHeight_in_band; [lia | lia | apply Hg]. }
    assert (PolaroidPhotos.inBand 2 1 (vy (PolaroidPhotos.targetPos p1)))
      as B1.
    { rewrite Hy1. apply hangingHeight_in_band; [lia | lia |].
      rewrite Ht0. apply Hg. }
    assert (PolaroidPhotos.bandHi 2 0 = PolaroidPhotos.bandLo 2 1) as Hedge
        by reflexivity.
    split; [reflexivity |].
    split; [rewrite Hid0, Hid1; reflexivity |].
    split; [reflexivity |].
    split; [exact B0 |]. split; [exact B1 |]. split; [exact Hedge |].
    unfold PolaroidPhotos.inBand in B0, B1. rewrite Hedge in B0. lra.
  - intros f progressRef Hbad.
    rewrite (mountPhotos_names resolveURL imageLoads lookOutward f [])
      by (rewrite (loadManifest_bad f Hbad); reflexivity).
    split; reflexivity.
Qed.

Lemma photo_manifest_end_to_end_witness :
  let loads := fun c => negb (String.eqb (PolaroidPhotos.id c) "p2") in
  let quat := fun _ : Vector3 => PolaroidPhotos.mkQuaternion 0 0 0 1 in
  let g := mkRNG (fun _ => 0.5) 0 in
  let names :=
    PolaroidPhotos.JString <$> ["a.jpg"; "b.jpg"; "c.jpg"]%string in
  (exists p0 p1,
      (PolaroidPhotos.mountPhotos (fun s => s) loads quat
         (PolaroidPhotos.Response true 200
            (Some (PolaroidPhotos.JObject
                     [("files"%string, PolaroidPhotos.JArray names)])))
         g).1 = Some [p0; p1] /\
      map PolaroidPhotos.p_id [p0; p1] = ["p1"; "p3"]%string /\
      PolaroidPhotos.render 1%positive [p0; p1]
      = Some [("p1"%string, 0%nat, 1%positive);
              ("p3"%string, 1%nat, 1%positive)]) /\
  (PolaroidPhotos.mountPhotos (fun s => s) loads quat
     (PolaroidPhotos.Response false 404 None) g).1 = Some [] /\
  (PolaroidPhotos.mountPhotos (fun s => s) loads quat
     (PolaroidPhotos.Response true 200
        (Some (PolaroidPhotos.JObject
                 [("photos"%string, PolaroidPhotos.JArray names)])))
     g).1 = Some [].
Proof.
  cbn zeta.
  assert (unit_draws (mkRNG (fun _ => 0.5) 0)) as Hg
      by (intros k; cbn; lra).
  pose proof (photo_manifest_end_to_end (fun s => s)
    (fun c => negb (String.eqb (PolaroidPhotos.id c) "p2"))
    (fun _ => PolaroidPhotos.mkQuaternion 0 0 0 1)
    (mkRNG (fun _ => 0.5) 0) Hg) as [Hload Hmissing].
  split; [| split].
  - destruct (Hload
      (PolaroidPhotos.Response true 200
         (Some (PolaroidPhotos.JObject
                  [("files"%string,
                    PolaroidPhotos.JArray
                      (PolaroidPhotos.JString
                         <$> ["a.jpg"; "b.jpg"; "c.jpg"]%string))])))
      "a.jpg"%string "b.jpg"%string "c.jpg"%string 1%positive
      eq_refl eq_refl)
      as (p0 & p1 & Hps & Hids & Hr & _).
    exists p0, p1. split; [exact Hps |]. split; [exact Hids |].
    cbn in Hids. injection Hids as E0 E1. rewrite E0, E1 in Hr. exact Hr.
  - exact (proj1 (Hmissing (PolaroidPhotos.Response false 404 None)
                    1%positive (or_introl eq_refl))).
  - exact (proj1 (Hmissing
      (PolaroidPhotos.Response true 200
         (Some (PolaroidPhotos.JObject
                  [("photos"%string,
                    PolaroidPhotos.JArray
                      (PolaroidPhotos.JString
                         <$> ["a.jpg"; "b.jpg"; "c.jpg"]%string))])))
      1%positive (or_intror I))).
Defined.

(** * Further properties of the code *)

(** ** [normalizeRange] (utils/math.ts) *)

(** X1: on a source range that is not a single point, [normalizeRange]
    sends [min] to [newMin] and [max] to [newMax], and mapping back
    from a target range that is not a single point returns the value it
    started from. *)
Theorem normalizeRange_round_trip :
  forall (val min max newMin newMax : R),
    min <> max ->
    normalizeRange min min max newMin newMax = newMin /\
    normalizeRange max min max newMin newMax = newMax /\
    (newMin <> newMax ->
     normalizeRange (normalizeRange val min max newMin newMax)
                    newMin newMax min max = val).
Proof.
  intros val min max newMin newMax Hne. unfold normalizeRange.
  assert (max - min <> 0) as Hd by lra.
  split; [field; exact Hd |]. split; [field; exact Hd |].
  intros Hne'. assert (newMax - newMin <> 0) as Hd' by lra.
  field. split; assumption.
Qed.

Lemma normalizeRange_round_trip_witness :
  normalizeRange 0 0 1 (-1) 1 = -1 /\
  normalizeRange (normalizeRange 0.75 0 1 (-1) 1) (-1) 1 0 1 = 0.75.
Proof.
  assert (0 <> 1) as H01 by lra.
  assert (-1 <> 1) as H11 by lra.
  destruct (normalizeRange_round_trip 0.75 0 1 (-1) 1 H01) as (Hlo & _ & Hback).
  split; [exact Hlo | exact (Hback H11)].
Defined.

(** ** The hand position reported by the classifier *)

Lemma addTipDist_no_wrist (landmarks : list Landmark) (acc : option R)
    (idx : nat) :
  addTipDist landmarks None acc idx = None.
Proof.
  unfold addTipDist. destruct acc; [| reflexivity]. cbn.
  destruct (landmarks !! idx); reflexivity.
Qed.

(** A hand that is classified has a wrist, and its reading is made of
    the threshold test on the accumulated distance and the mirrored
    centroid. *)
Lemma classify_Some (landmarks : list Landmark) (r : Reading) :
  classify landmarks = Some r ->
  let n := INR (length landmarks) in
  let sumX := foldl (fun s l => s + lm_x l) 0 landmarks in
  let sumY := foldl (fun s l => s + lm_y l) 0 landmarks in
  0 < n /\
  r_x r = - (sumX / n - 0.5) * 2 /\
  r_y r = - (sumY / n - 0.5) * 2 /\
  r_detected r = true.
Proof.
  intros Hc n sumX sumY. unfold classify in Hc.
  destruct landmarks as [| w rest].
  - exfalso. cbn in Hc. discriminate Hc.
  - split.
    { unfold n. cbn [length]. rewrite S_INR.
      pose proof (pos_INR (length rest)). lra. }
    destruct (foldl _ (Some 0) tips) as [total |]; [| discriminate Hc].
    cbn [mbind option_bind] in Hc. injection Hc as <-.
    cbn [r_x r_y r_detected]. repeat split; reflexivity.
Qed.

Lemma sum_bounds (f : Landmark -> R) (landmarks : list Landmark) (a : R) :
  Forall (fun l => 0 <= f l <= 1) landmarks ->
  a <= foldl (fun s l => s + f l) a landmarks <= a + INR (length landmarks).
Proof.
  intros H. revert a. induction H as [| l rest Hl Hrest IH]; intros a.
  - cbn. lra.
  - cbn [foldl length]. rewrite S_INR. specialize (IH (a + f l)). lra.
Qed.

Lemma mean_unit (s n : R) : 0 < n -> 0 <= s <= n -> 0 <= s / n <= 1.
Proof.
  intros Hn Hs. unfold Rdiv.
  assert (0 < / n) as Hi by (apply Rinv_0_lt_compat; exact Hn).
  assert (n * / n = 1) as H1 by (apply Rinv_r; lra).
  split; nra.
Qed.

(** X2: the position of a classified hand is the centroid of its
    landmarks, mirrored and mapped from [0,1] to [-1,1]; for landmarks
    inside the frame both coordinates lie in [-1, 1]. *)
Theorem classify_position_range :
  forall (landmarks : list Landmark) (r : Reading),
    classify landmarks = Some r ->
    inFrame landmarks ->
    -1 <= r_x r <= 1 /\ -1 <= r_y r <= 1.
Proof.
  intros landmarks r Hc Hin.
  destruct (classify_Some landmarks r Hc) as (Hn & Hx & Hy & _).
  assert (Forall (fun l => 0 <= lm_x l <= 1) landmarks) as HX
      by (eapply Forall_impl; [exact Hin | cbn; tauto]).
  assert (Forall (fun l => 0 <= lm_y l <= 1) landmarks) as HY
      by (eapply Forall_impl; [exact Hin | cbn; tauto]).
  pose proof (sum_bounds lm_x landmarks 0 HX) as BX.
  pose proof (sum_bounds lm_y landmarks 0 HY) as BY.
  rewrite Hx, Hy.
  set (n := INR (length landmarks)) in *.
  set (sx := foldl (fun s l => s + lm_x l) 0 landmarks) in *.
  set (sy := foldl (fun s l => s + lm_y l) 0 landmarks) in *.
  assert (0 <= sx / n <= 1) as QX by (apply mean_unit; lra).
  assert (0 <= sy / n <= 1) as QY by (apply mean_unit; lra).
  lra.
Qed.

Lemma classify_position_range_witness :
  exists r, classify (syntheticHand 0.3) = Some r /\
            -1 <= r_x r <= 1 /\ -1 <= r_y r <= 1.
Proof.
  destruct (classify (syntheticHand 0.3)) as [r |] eqn:Hc.
  - exists r. split; [reflexivity |].
    apply (classify_position_range (syntheticHand 0.3) r Hc).
    unfold syntheticHand, inFrame.
    apply Forall_cons; split; [cbn; lra |].
    apply Forall_replicate. cbn. lra.
  - exfalso.
    destruct (classify_hand (syntheticHand 0.3) (mkLandmark 0.5 0.5)
                _ _ _ _ _ eq_refl eq_refl eq_refl eq_refl eq_refl eq_refl)
      as (x & y & H).
    rewrite H in Hc. discriminate Hc.
Defined.

(** ** Moving the hand in the frame *)

Lemma addTipDist_translate (dx dy : R) (landmarks : list Landmark)
    (acc : option R) (idx : nat) :
  addTipDist (translate dx dy landmarks) (translate dx dy landmarks !! 0%nat)
             acc idx
  = addTipDist landmarks (landmarks !! 0%nat) acc idx.
Proof.
  unfold addTipDist, translate. rewrite !list_lookup_fmap.
  destruct acc as [total |]; [| reflexivity]. cbn.
  destruct (landmarks !! idx) as [tip |]; [| reflexivity]. cbn.
  destruct (landmarks !! 0%nat) as [w |]; [| reflexivity]. cbn.
  apply f_equal. apply f_equal. apply f_equal. ring.
Qed.

Lemma sum_shift (f : Landmark -> R) (landmarks : list Landmark) (a c : R) :
  foldl (fun s l => s + f l) (a + c) landmarks
  = foldl (fun s l => s + f l) a landmarks + c.
Proof.
  revert a. induction landmarks as [| l rest IH]; intros a; [reflexivity |].
  cbn [foldl]. replace (a + c + f l) with (a + f l + c) by ring. apply IH.
Qed.

Lemma sum_translate (f : Landmark -> R) (d : R) (g : Landmark -> Landmark)
    (landmarks : list Landmark) (a : R) :
  (forall l, f (g l) = f l + d) ->
  foldl (fun s l => s + f l) a (g <$> landmarks)
  = foldl (fun s l => s + f l) a landmarks + INR (length landmarks) * d.
Proof.
  intros Hg. revert a. induction landmarks as [| l rest IH]; intros a.
  - cbn. ring.
  - cbn [fmap list_fmap foldl length]. rewrite S_INR.
    change (list_fmap _ _ g rest) with (g <$> rest).
    rewrite IH, Hg. replace (a + (f l + d)) with (a + f l + d) by ring.
    rewrite sum_shift. ring.
Qed.

(** X3: moving every landmark of a hand by the same offset does not
    change whether the hand is classified, nor whether it is open; the
    reported position moves by minus twice the offset. *)
Theorem classify_translation :
  forall (dx dy : R) (landmarks : list Landmark),
    classify (translate dx dy landmarks)
    = (fun r => mkReading (r_isOpen r) (r_x r - 2 * dx) (r_y r - 2 * dy)
                          (r_detected r))
        <$> classify landmarks.
Proof.
  intros dx dy landmarks. unfold classify.
  assert (foldl (addTipDist (translate dx dy landmarks)
                   (translate dx dy landmarks !! 0%nat)) (Some 0) tips
          = foldl (addTipDist landmarks (landmarks !! 0%nat)) (Some 0) tips)
    as ->.
  { unfold tips. cbn [foldl]. rewrite !addTipDist_translate. reflexivity. }
  destruct (foldl (addTipDist landmarks (landmarks !! 0%nat)) (Some 0) tips)
    as [total |] eqn:Htot; [| reflexivity].
  cbn [mbind option_bind fmap option_fmap option_map r_isOpen r_x r_y
       r_detected].
  assert (0 < INR (length landmarks)) as Hn.
  { destruct landmarks as [| w rest].
    - exfalso. unfold tips in Htot. cbn [foldl lookup list_lookup] in Htot.
      rewrite !addTipDist_no_wrist in Htot. discriminate Htot.
    - cbn [length]. rewrite S_INR. pose proof (pos_INR (length rest)). lra. }
  unfold translate at 1 2 3 4.
  rewrite length_fmap.
  rewrite (sum_translate lm_x dx) by reflexivity.
  rewrite (sum_translate lm_y dy) by reflexivity.
  f_equal. f_equal; field; lra.
Qed.

(** ** One classification per video frame *)

Lemma detect_cases (s : VisionService) :
  (forall now, detect now s = (None, s)) \/
  exists lm v,
    handLandmarker s = Some lm /\ video s = Some v /\ isRunning s = true /\
    ((videoWidth v =? 0) || (videoHeight v =? 0))%nat = false /\
    currentTime v <> lastVideoTime s /\
    forall now,
      detect now s =
      (tryDetect lm v now,
       {| handLandmarker := handLandmarker s; video := video s;
          lastVideoTime := currentTime v; isRunning := isRunning s |}).
Proof.
  unfold detect.
  destruct (handLandmarker s) as [lm |] eqn:Hlm; [| left; reflexivity].
  destruct (video s) as [v |] eqn:Hv; [| left; reflexivity].
  destruct (isRunning s) eqn:Hrun; [| left; reflexivity].
  destruct ((videoWidth v =? 0) || (videoHeight v =? 0))%nat eqn:Hz;
    [left; reflexivity |].
  destruct (Reqb (currentTime v) (lastVideoTime s)) eqn:Ht;
    [left; reflexivity |].
  right. exists lm, v. apply Reqb_false in Ht.
  repeat split; try reflexivity; assumption.
Qed.

(** [detect] only ever writes [lastVideoTime]. *)
Lemma detect_preserves (now : R) (s : VisionService) :
  handLandmarker (detect now s).2 = handLandmarker s /\
  video (detect now s).2 = video s /\
  isRunning (detect now s).2 = isRunning s.
Proof.
  destruct (detect_cases s) as [E | (lm & v & _ & _ & _ & _ & _ & E)];
    rewrite E; cbn; tauto.
Qed.

(** X4: whatever the first call of [detect] did on a video frame
    (classified it, found no hand, caught an exception, or returned
    early), a second call on the same frame returns null and changes
    nothing; [detect] never touches the landmarker, the video or the
    running flag. *)
Theorem detect_once_per_frame :
  forall (now now' : R) (s : VisionService),
    let s' := (detect now s).2 in
    (detect now' s').1 = None /\
    (detect now' s').2 = s' /\
    handLandmarker s' = handLandmarker s /\
    video s' = video s /\
    isRunning s' = isRunning s.
Proof.
  intros now now' s s'.
  assert (detect now' s' = (None, s')) as H2.
  { subst s'.
    destruct (detect_cases s)
      as [E | (lm & v & Hlm & Hv & Hrun & Hz & Ht & E)]; rewrite E; cbn [snd].
    - apply E.
    - unfold detect. cbn [handLandmarker video isRunning lastVideoTime].
      rewrite Hlm, Hv, Hrun, Hz.
      assert (Reqb (currentTime v) (currentTime v) = true) as ->
          by (apply Reqb_true; reflexivity).
      reflexivity. }
  rewrite H2. cbn [fst snd].
  pose proof (detect_preserves now s) as (P1 & P2 & P3).
  repeat split; assumption.
Qed.

(** ** After [stop] *)

Lemma loops_stopped (nows : list R) (w : World) :
  isRunning (service w) = false -> loops nows w = w.
Proof.
  intros H. unfold loops. induction nows as [| now nows IH]; [reflexivity |].
  cbn [foldl]. rewrite (loop_stopped now w H). exact IH.
Qed.

(** X5: [stop] is idempotent; on a stopped service [detect] returns
    null without touching the service, and after the cleanup of the app
    any number of further runs of [loop] leave the world as it is: no
    frame is requested and neither the gesture nor the tree state
    changes. *)
Theorem stopped_service_is_inert :
  forall (s : VisionService) (w : World) (now : R) (nows : list R),
    stop (stop s) = stop s /\
    detect now (stop s) = (None, stop s) /\
    loops nows (cleanup w) = cleanup w /\
    app (loops nows (cleanup w)) = app w.
Proof.
  intros s w now nows.
  split; [reflexivity |]. split.
  - apply detect_notReady. unfold notReady. cbn. tauto.
  - rewrite (loops_stopped nows (cleanup w)) by reflexivity.
    split; reflexivity.
Qed.

(** ** [startExperience] without an error *)

(** X6: when the browser has a camera API, the landmarker loads, the
    video element is mounted and the camera starts, [startExperience]
    leaves the app RUNNING with an empty error message and the service
    ready (this landmarker, this video element, running), and the first
    run of [loop] has requested the next frame. *)
Theorem startExperience_success :
  forall (b : Browser) (now : R) (w : World) (lm : HandLandmarker)
         (el : HTMLVideoElement) (u : unit),
    hasGetUserMedia b = true ->
    createLandmarker b = Resolves lm ->
    videoRef b = Some el ->
    getUserMedia b = Resolves u ->
    let w' := startExperience b now w in
    appState (app w') = RUNNING /\
    errorMsg (app w') = ""%string /\
    handLandmarker (service w') = Some lm /\
    video (service w') = Some el /\
    isRunning (service w') = true /\
    requestRef (app w') = Some (S (frames w)) /\
    frames w' = S (frames w).
Proof.
  intros b now w lm el u Hmedia Hlm Hel Hcam w'. subst w'.
  unfold startExperience. rewrite Hmedia, Hlm. cbn [negb initialize].
  rewrite Hel, Hcam. cbn [startCamera handLandmarker video lastVideoTime
                          isRunning app service frames].
  rewrite loop_running by reflexivity.
  cbn [app service frames].
  match goal with
  | |- context [detect now ?s] =>
      pose proof (detect_preserves now s) as (P1 & P2 & P3);
      destruct (detect now s) as [result s'] eqn:Hd
  end.
  cbn [fst snd] in *. cbn in P1, P2, P3.
  destruct result as [r |]; cbn.
  - rewrite P1, P2, P3. destruct (r_detected r), (r_isOpen r); cbn;
      repeat split; reflexivity.
  - rewrite P1, P2, P3. repeat split; reflexivity.
Qed.

Lemma startExperience_success_witness :
  let w := mkWorld initialApp (mkVisionService None None (-1) false) 0 in
  let b := mkBrowser true (Resolves (constantLandmarker None))
                     (Some (mkVideo 640 480 0)) (Resolves tt) in
  appState (app (startExperience b 0 w)) = RUNNING /\
  isRunning (service (startExperience b 0 w)) = true /\
  requestRef (app (startExperience b 0 w)) = Some 1%nat.
Proof.
  cbn zeta.
  destruct (startExperience_success
    (mkBrowser true (Resolves (constantLandmarker None))
               (Some (mkVideo 640 480 0)) (Resolves tt))
    0 (mkWorld initialApp (mkVisionService None None (-1) false) 0)
    (constantLandmarker None) (mkVideo 640 480 0) tt
    eq_refl eq_refl eq_refl eq_refl)
    as (Hs & _ & _ & _ & Hr & Hq & _).
  split; [exact Hs |]. split; [exact Hr | exact Hq].
Defined.

(** X7: without a camera API, or when the landmarker loads but no video
    element is mounted, [startExperience] on a service that is not
    running ends RUNNING with an empty error message and without
    starting anything: the service is still not running and no frame
    was requested, so only the manual controls act on the tree. *)
Theorem startExperience_manual_mode :
  forall (b : Browser) (now : R) (w : World),
    isRunning (service w) = false ->
    hasGetUserMedia b = false \/
    (exists lm, createLandmarker b = Resolves lm /\ videoRef b = None) ->
    let w' := startExperience b now w in
    appState (app w') = RUNNING /\
    errorMsg (app w') = ""%string /\
    isRunning (service w') = false /\
    video (service w') = video (service w) /\
    requestRef (app w') = requestRef (app w) /\
    frames w' = frames w /\
    overlay (app w')
    = Some (Controls (CallSetTreeState CHAOS) (CallSetTreeState FORMED)).
Proof.
  intros b now w Hoff Hcase w'. subst w'. unfold startExperience.
  destruct (hasGetUserMedia b) eqn:Hmedia; cbn [negb].
  - destruct Hcase as [K | (lm & Hlm & Hel)]; [discriminate K |].
    rewrite Hlm. cbn [initialize]. rewrite Hel.
    rewrite loop_stopped by (cbn; exact Hoff).
    cbn. rewrite Hoff. repeat split; reflexivity.
  - cbn. rewrite Hoff. repeat split; reflexivity.
Qed.

Lemma startExperience_manual_mode_witness :
  let w := mkWorld initialApp (mkVisionService None None (-1) false) 0 in
  let b := mkBrowser false (Rejects (mkJsError None None)) None
                     (Rejects (mkJsError None None)) in
  appState (app (startExperience b 0 w)) = RUNNING /\
  frames (startExperience b 0 w) = 0%nat.
Proof.
  cbn zeta.
  destruct (startExperience_manual_mode
    (mkBrowser false (Rejects (mkJsError None None)) None
               (Rejects (mkJsError None None)))
    0 (mkWorld initialApp (mkVisionService None None (-1) false) 0)
    eq_refl (or_introl eq_refl))
    as (Hs & _ & _ & _ & _ & Hf & _).
  split; [exact Hs | exact Hf].
Defined.

(** ** Progress stays between 0 and 1 *)

Lemma relax_towards (t : TreeState) (speed p : R) :
  0 <= speed <= 1 -> 0 <= p <= 1 ->
  towards t p (relax (destOf t) speed p).
Proof.
  intros Hs Hp. unfold towards, relax, destOf. destruct t; cbn; nra.
Qed.

Lemma towards_refl (t : TreeState) (p : R) : 0 <= p <= 1 -> towards t p p.
Proof. intros Hp. unfold towards. destruct t; lra. Qed.

Lemma relax_iter_towards (t : TreeState) (speed p : R) (n : nat) :
  0 <= speed <= 1 -> 0 <= p <= 1 ->
  towards t p (Nat.iter n (relax (destOf t) speed) p).
Proof.
  intros Hs Hp. induction n as [| n IH]; [apply towards_refl; exact Hp |].
  rewrite Nat.iter_succ.
  pose proof (relax_iter_unit t speed p n Hs Hp) as Hu.
  pose proof (relax_towards t speed _ Hs Hu) as Hstep.
  unfold towards in *. destruct t; lra.
Qed.

Lemma foldl_option_None {A B} (f : A -> B -> option A) (l : list B) :
  foldl (fun acc b => a ← acc; f a b) None l = None.
Proof. induction l as [| b l IH]; [reflexivity | exact IH]. Qed.

(** Whatever the data, a loop over the instances that runs through
    leaves one update per instance on the progress. *)
Lemma Ornaments_loop_Some (ty : Ornaments.OrnamentType) (t : TreeState)
    (scale : R) (data : Ornaments.Data) (time : R) (k a : nat)
    (m m' : Object3D) :
  foldl (fun acc i =>
           m' ← acc; Ornaments.instanceStep ty t scale data time m' i)
        (Some m) (seq a k) = Some m' ->
  progressOr0 (userData_progress m')
  = Nat.iter k (relax (destOf t) (Ornaments.speed ty))
             (progressOr0 (userData_progress m)).
Proof.
  revert a m. induction k as [| k IH]; intros a m H.
  - cbn in H. injection H as <-. reflexivity.
  - cbn [seq foldl] in H. cbn [mbind option_bind] in H.
    destruct (Ornaments.instanceStep ty t scale data time m a) as [m1 |] eqn:E.
    + rewrite (IH _ _ H), (Ornaments_instanceStep_progress _ _ _ _ _ _ _ _ E).
      cbn [progressOr0]. rewrite <- Nat.iter_succ_r. reflexivity.
    + rewrite foldl_option_None in H. discriminate H.
Qed.

Lemma Ornaments_speed_unit (ty : Ornaments.OrnamentType) :
  0 <= Ornaments.speed ty <= 1.
Proof. destruct ty; cbn; lra. Qed.

(** X8: a frame of any animator keeps a progress that lies in [0, 1]
    inside [0, 1] and never moves it away from its destination or past
    it: towards FORMED it does not decrease, towards CHAOS it does not
    increase. *)
Theorem progress_stays_in_unit_interval :
  forall (l : loc) (σ : Store) (t : TreeState),
    0 <= progressAt l σ <= 1 ->
    (forall chaos time,
        towards t (progressAt l σ)
          (progressAt l (Topper.useFrame t chaos time (Some l) σ)))
    /\ (forall time,
        towards t (progressAt l σ)
          (progressAt l (Foliage.useFrame t time (Some l) σ)))
    /\ towards t (progressAt l σ)
         (progressAt l (PolaroidPhotos.useFrame t l σ))
    /\ (forall ty scale data time σ',
        Ornaments.useFrame ty t scale data time (Some l) σ = Some σ' ->
        towards t (progressAt l σ) (progressAt l σ')).
Proof.
  intros l σ t Hp.
  assert (0 <= 0.02 <= 1) as H02 by lra.
  repeat split.
  - intros chaos time. unfold Topper.useFrame.
    destruct (σ !! l) as [[m | u0 t0 | c] |] eqn:El;
      try (apply towards_refl; exact Hp).
    unfold progressAt in *. rewrite lookup_insert_eq. rewrite El in Hp.
    rewrite El, Topper_frame_progress. cbn [progressOr0].
    apply relax_towards; assumption.
  - intros time.
    destruct (σ !! l) as [[m | u0 t0 | c] |] eqn:El;
      try (unfold Foliage.useFrame; rewrite El; apply towards_refl; exact Hp).
    rewrite (Foliage_frame_progress t time l σ u0 t0 El).
    unfold progressAt in *. rewrite lookup_insert_eq. rewrite El in Hp.
    rewrite El. apply relax_towards; assumption.
  - destruct (σ !! l) as [[m | u0 t0 | c] |] eqn:El;
      try (unfold PolaroidPhotos.useFrame; rewrite El; apply towards_refl;
           exact Hp).
    rewrite (PolaroidPhotos_frame_progress t l σ c El).
    unfold progressAt in *. rewrite lookup_insert_eq. rewrite El in Hp.
    rewrite El. apply relax_towards; assumption.
  - intros ty scale data time σ'. unfold Ornaments.useFrame.
    destruct (σ !! l) as [[m | u0 t0 | c] |] eqn:El;
      try (intros H; injection H as <-; apply towards_refl; exact Hp).
    unfold Ornaments.instances.
    destruct (foldl _ (Some m) (seq 0 (Ornaments.count ty))) as [m' |] eqn:Ef;
      cbn [mbind option_bind]; [| discriminate].
    intros H. injection H as <-.
    unfold progressAt in *. rewrite lookup_insert_eq. rewrite El in Hp.
    rewrite El, (Ornaments_loop_Some _ _ _ _ _ _ _ _ _ Ef).
    apply relax_iter_towards; [apply Ornaments_speed_unit | exact Hp].
Qed.

Lemma progress_stays_in_unit_interval_witness :
  towards FORMED 0.5
    (progressAt 1%positive
       (PolaroidPhotos.useFrame FORMED 1%positive
          {[1%positive := NumberRef 0.5]})).
Proof.
  assert (0 <= progressAt 1%positive
                 ({[1%positive := NumberRef 0.5]} : Store) <= 1) as Hp.
  { unfold progressAt. rewrite lookup_singleton_eq. lra. }
  pose proof (proj1 (proj2 (proj2
    (progress_stays_in_unit_interval 1%positive
       {[1%positive := NumberRef 0.5]} FORMED Hp)))) as H.
  unfold progressAt at 1 in H. rewrite lookup_singleton_eq in H. exact H.
Defined.

(** ** What a frame of the ornaments writes *)

Lemma instanceStep_Some (ty : Ornaments.OrnamentType) (t : TreeState)
    (scale : R) (data : Ornaments.Data) (time : R) (m m' : Object3D)
    (i : nat) :
  Ornaments.instanceStep ty t scale data time m i = Some m' ->
  exists chaos target tr,
    Ornaments.chaosPos data !! i = Some chaos /\
    Ornaments.targetPos data !! i = Some target /\
    (i < length (Ornaments.rotations data))%nat /\
    instanceMatrix m' = <[i := tr]> (instanceMatrix m) /\
    t_position tr
    = lerpVectors (ornamentEnds t time i chaos target).1
                  (ornamentEnds t time i chaos target).2
                  (relax (destOf t) (Ornaments.speed ty)
                         (progressOr0 (userData_progress m))).
Proof.
  unfold Ornaments.instanceStep. intros H.
  destruct (Ornaments.targetPos data !! i) as [target |] eqn:Et;
    [| discriminate H].
  destruct (Ornaments.chaosPos data !! i) as [chaos |] eqn:Ec;
    [| discriminate H].
  destruct (Ornaments.rotations data !! i) as [rot |] eqn:Er;
    [| discriminate H].
  cbn [mbind option_bind] in H. injection H as <-.
  eexists chaos, target, _. split; [reflexivity |]. split; [reflexivity |].
  split; [eapply lookup_lt_Some; exact Er |].
  split; [reflexivity |].
  unfold ornamentEnds, destOf. destruct (isFormed t); reflexivity.
Qed.

Lemma instanceStep_covered (ty : Ornaments.OrnamentType) (t : TreeState)
    (scale : R) (data : Ornaments.Data) (time : R) (m : Object3D) (n i : nat) :
  covers data n -> (i < n)%nat ->
  exists m', Ornaments.instanceStep ty t scale data time m i = Some m'.
Proof.
  intros (Hc & Ht & Hr) Hi. unfold Ornaments.instanceStep.
  destruct (lookup_lt_is_Some_2 (Ornaments.targetPos data) i) as [x ->];
    [lia |].
  destruct (lookup_lt_is_Some_2 (Ornaments.chaosPos data) i) as [y ->];
    [lia |].
  destruct (lookup_lt_is_Some_2 (Ornaments.rotations data) i) as [z ->];
    [lia |].
  cbn. eexists. reflexivity.
Qed.

(** The loop over the instances [a, a + k): what it leaves in the
    instance matrices. *)
Lemma Ornaments_loop_matrices (ty : Ornaments.OrnamentType) (t : TreeState)
    (scale : R) (data : Ornaments.Data) (time : R) (k a : nat)
    (m m' : Object3D) :
  (a + k <= length (instanceMatrix m))%nat ->
  foldl (fun acc i =>
           m' ← acc; Ornaments.instanceStep ty t scale data time m' i)
        (Some m) (seq a k) = Some m' ->
  length (instanceMatrix m') = length (instanceMatrix m) /\
  (forall j, (j < a \/ a + k <= j)%nat ->
             instanceMatrix m' !! j = instanceMatrix m !! j) /\
  (forall j, (a <= j < a + k)%nat ->
     exists chaos target tr,
       Ornaments.chaosPos data !! j = Some chaos /\
       Ornaments.targetPos data !! j = Some target /\
       instanceMatrix m' !! j = Some tr /\
       t_position tr
       = lerpVectors (ornamentEnds t time j chaos target).1
                     (ornamentEnds t time j chaos target).2
                     (Nat.iter (S (j - a))
                        (relax (destOf t) (Ornaments.speed ty))
                        (progressOr0 (userData_progress m)))).
Proof.
  revert a m. induction k as [| k IH]; intros a m Hlen H.
  - cbn in H. injection H as <-. split; [reflexivity |].
    split; [reflexivity |]. intros j Hj. lia.
  - cbn [seq foldl] in H. cbn [mbind option_bind] in H.
    destruct (Ornaments.instanceStep ty t scale data time m a) as [m1 |] eqn:E;
      [| rewrite foldl_option_None in H; discriminate H].
    destruct (instanceStep_Some _ _ _ _ _ _ _ _ E)
      as (chaos & target & tr & Hc & Ht & _ & Hm1 & Hpos).
    pose proof (Ornaments_instanceStep_progress _ _ _ _ _ _ _ _ E) as Hp1.
    assert (length (instanceMatrix m1) = length (instanceMatrix m)) as Hl1
        by (rewrite Hm1; apply length_insert).
    destruct (IH (S a) m1) as (L & Before & Within);
      [rewrite Hl1; lia | exact H |].
    split; [rewrite L; exact Hl1 |]. split.
    + intros j Hj. rewrite Before by lia. rewrite Hm1.
      apply list_lookup_insert_ne. lia.
    + intros j Hj. destruct (decide (j = a)) as [-> | Hne].
      * exists chaos, target, tr. split; [exact Hc |]. split; [exact Ht |].
        split.
        -- rewrite Before by lia. rewrite Hm1.
           apply list_lookup_insert_eq. lia.
        -- rewrite Hpos. replace (a - a)%nat with 0%nat by lia. reflexivity.
      * destruct (Within j) as (c & g & tr' & Hc' & Hg' & Hlook & Hpos');
          [lia |].
        exists c, g, tr'. split; [exact Hc' |]. split; [exact Hg' |].
        split; [exact Hlook |].
        rewrite Hpos', Hp1. cbn [progressOr0].
        replace (S (j - a)) with (S (S (j - S a))) by lia.
        rewrite (Nat.iter_succ_r (S (j - S a))). reflexivity.
Qed.

(** X9: after a frame of an [Ornaments] mesh with one matrix per
    instance, the mesh has as many matrices as before, and instance [i]
    sits between its two ends at the progress after [i + 1] updates of
    the recurrence from the progress before the frame: within a frame
    every instance is placed at its own, later progress. *)
Theorem Ornaments_instance_positions :
  forall (ty : Ornaments.OrnamentType) (t : TreeState) (scale : R)
         (data : Ornaments.Data) (time : R) (l : loc) (σ σ' : Store)
         (m : Object3D),
    σ !! l = Some (Obj3D m) ->
    length (instanceMatrix m) = Ornaments.count ty ->
    Ornaments.useFrame ty t scale data time (Some l) σ = Some σ' ->
    exists m',
      σ' !! l = Some (Obj3D m') /\
      length (instanceMatrix m') = Ornaments.count ty /\
      forall i, (i < Ornaments.count ty)%nat ->
        exists chaos target tr,
          Ornaments.chaosPos data !! i = Some chaos /\
          Ornaments.targetPos data !! i = Some target /\
          instanceMatrix m' !! i = Some tr /\
          t_position tr
          = lerpVectors (ornamentEnds t time i chaos target).1
                        (ornamentEnds t time i chaos target).2
                        (Nat.iter (S i)
                           (relax (destOf t) (Ornaments.speed ty))
                           (progressAt l σ)).
Proof.
  intros ty t scale data time l σ σ' m Hl Hlen.
  unfold Ornaments.useFrame, Ornaments.instances. rewrite Hl.
  destruct (foldl _ (Some m) (seq 0 (Ornaments.count ty))) as [m' |] eqn:Ef;
    cbn [mbind option_bind]; [| discriminate].
  intros H. injection H as <-.
  destruct (Ornaments_loop_matrices ty t scale data time
              (Ornaments.count ty) 0 m m') as (L & _ & Within);
    [lia | exact Ef |].
  exists m'. split; [apply lookup_insert_eq |].
  split; [rewrite L; exact Hlen |].
  intros i Hi. destruct (Within i) as (c & g & tr & Hc & Hg & Hlook & Hpos);
    [lia |].
  exists c, g, tr. split; [exact Hc |]. split; [exact Hg |].
  split; [exact Hlook |].
  rewrite Hpos. unfold progressAt. rewrite Hl.
  replace (i - 0)%nat with i by lia. reflexivity.
Qed.

Lemma Ornaments_instance_positions_witness :
  exists σ' m',
    Ornaments.useFrame Ornaments.gift CHAOS 0.35 (sampleData 30) 0
      (Some 1%positive) {[1%positive := Obj3D (newMesh 30)]} = Some σ' /\
    σ' !! 1%positive = Some (Obj3D m') /\
    length (instanceMatrix m') = 30%nat.
Proof.
  destruct (Ornaments_frame_progress Ornaments.gift CHAOS 0.35
              (sampleData 30) 0 1%positive
              {[1%positive := Obj3D (newMesh 30)]} (newMesh 30))
    as (σ' & Hrun & _).
  - unfold wellFormed, sampleData. cbn [Ornaments.chaosPos
      Ornaments.targetPos Ornaments.rotations Ornaments.count].
    rewrite !length_replicate. tauto.
  - apply lookup_singleton_eq.
  - destruct (Ornaments_instance_positions Ornaments.gift CHAOS 0.35
                (sampleData 30) 0 1%positive
                {[1%positive := Obj3D (newMesh 30)]} σ' (newMesh 30))
      as (m' & Hm' & Hlen & _).
    + apply lookup_singleton_eq.
    + cbn [newMesh instanceMatrix Ornaments.count]. apply length_replicate.
    + exact Hrun.
    + exists σ', m'. split; [exact Hrun |]. split; [exact Hm' | exact Hlen].
Defined.

(** ** When a frame of the ornaments throws *)

Lemma instanceStep_uncovered (ty : Ornaments.OrnamentType) (t : TreeState)
    (scale : R) (data : Ornaments.Data) (time : R) (m : Object3D) (i : nat) :
  (length (Ornaments.chaosPos data) <= i \/
   length (Ornaments.targetPos data) <= i \/
   length (Ornaments.rotations data) <= i)%nat ->
  Ornaments.instanceStep ty t scale data time m i = None.
Proof.
  intros H. unfold Ornaments.instanceStep.
  destruct (Ornaments.targetPos data !! i) as [x |] eqn:Et; [| reflexivity].
  destruct (Ornaments.chaosPos data !! i) as [y |] eqn:Ec; [| reflexivity].
  destruct (Ornaments.rotations data !! i) as [z |] eqn:Er; [| reflexivity].
  apply lookup_lt_Some in Et, Ec, Er. lia.
Qed.

Lemma Ornaments_loop_throws (ty : Ornaments.OrnamentType) (t : TreeState)
    (scale : R) (data : Ornaments.Data) (time : R) (k a i : nat)
    (m : Object3D) :
  (a <= i < a + k)%nat ->
  (forall m, Ornaments.instanceStep ty t scale data time m i = None) ->
  foldl (fun acc i =>
           m' ← acc; Ornaments.instanceStep ty t scale data time m' i)
        (Some m) (seq a k) = None.
Proof.
  revert a m. induction k as [| k IH]; intros a m Hi Hfail; [lia |].
  cbn [seq foldl]. cbn [mbind option_bind].
  destruct (decide (i = a)) as [-> | Hne].
  - rewrite Hfail. apply foldl_option_None.
  - destruct (Ornaments.instanceStep ty t scale data time m a) as [m1 |].
    + apply IH; [lia | exact Hfail].
    + apply foldl_option_None.
Qed.

Lemma Ornaments_loop_covered (ty : Ornaments.OrnamentType) (t : TreeState)
    (scale : R) (data : Ornaments.Data) (time : R) (n k a : nat)
    (m : Object3D) :
  covers data n -> (a + k <= n)%nat ->
  exists m',
    foldl (fun acc i =>
             m' ← acc; Ornaments.instanceStep ty t scale data time m' i)
          (Some m) (seq a k) = Some m'.
Proof.
  intros Hcov. revert a m. induction k as [| k IH]; intros a m Hk.
  - exists m. reflexivity.
  - cbn [seq foldl]. cbn [mbind option_bind].
    destruct (instanceStep_covered ty t scale data time m n a Hcov)
      as [m1 ->]; [lia |].
    apply IH. lia.
Qed.

(** X10: a frame of an [Ornaments] component never throws without a
    mesh (a null ref or a location without a mesh leaves the store as it
    is); with a mesh it throws exactly when one of the three data arrays
    has fewer entries than the mesh has instances. *)
Theorem Ornaments_frame_throws_iff :
  forall (ty : Ornaments.OrnamentType) (t : TreeState) (scale : R)
         (data : Ornaments.Data) (time : R) (l : loc) (σ : Store),
    Ornaments.useFrame ty t scale data time None σ = Some σ /\
    ((forall m, σ !! l <> Some (Obj3D m)) ->
     Ornaments.useFrame ty t scale data time (Some l) σ = Some σ) /\
    (forall m, σ !! l = Some (Obj3D m) ->
       (Ornaments.useFrame ty t scale data time (Some l) σ = None
        <-> ~ covers data (Ornaments.count ty))).
Proof.
  intros ty t scale data time l σ. split; [reflexivity |]. split.
  - intros Hno. unfold Ornaments.useFrame.
    destruct (σ !! l) as [[m | u0 t0 | c] |]; try reflexivity.
    exfalso. apply (Hno m). reflexivity.
  - intros m Hl. unfold Ornaments.useFrame, Ornaments.instances.
    rewrite Hl. split.
    + intros Hnone Hcov.
      destruct (Ornaments_loop_covered ty t scale data time
                  (Ornaments.count ty) (Ornaments.count ty) 0 m Hcov)
        as [m' Hm']; [lia |].
      rewrite Hm' in Hnone. discriminate Hnone.
    + intros Hncov.
      assert (exists i, (i < Ornaments.count ty)%nat /\
                (length (Ornaments.chaosPos data) <= i \/
                 length (Ornaments.targetPos data) <= i \/
                 length (Ornaments.rotations data) <= i)%nat)
        as (i & Hi & Hshort).
      { unfold covers in Hncov.
        destruct (le_lt_dec (Ornaments.count ty)
                    (length (Ornaments.chaosPos data))) as [H1 | H1];
          [| exists (length (Ornaments.chaosPos data)); split; lia].
        destruct (le_lt_dec (Ornaments.count ty)
                    (length (Ornaments.targetPos data))) as [H2 | H2];
          [| exists (length (Ornaments.targetPos data)); split; lia].
        destruct (le_lt_dec (Ornaments.count ty)
                    (length (Ornaments.rotations data))) as [H3 | H3];
          [| exists (length (Ornaments.rotations data)); split; lia].
        exfalso. apply Hncov. tauto. }
      rewrite (Ornaments_loop_throws ty t scale data time
                 (Ornaments.count ty) 0 i m); [reflexivity | lia |].
      intros m0. apply instanceStep_uncovered. exact Hshort.
Qed.

Lemma Ornaments_frame_throws_iff_witness :
  Ornaments.useFrame Ornaments.ball FORMED 0.25 (sampleData 49) 0
    (Some 1%positive) {[1%positive := Obj3D (newMesh 50)]} = None.
Proof.
  apply (proj2 (proj2 (Ornaments_frame_throws_iff Ornaments.ball FORMED 0.25
                         (sampleData 49) 0 1%positive
                         {[1%positive := Obj3D (newMesh 50)]}))
           (newMesh 50)).
  - apply lookup_singleton_eq.
  - unfold covers, sampleData. cbn [Ornaments.chaosPos Ornaments.count].
    rewrite length_replicate. lia.
Defined.

(** ** The data memo of the ornaments *)

Lemma unit_draws_advance (g : RNG) (k : nat) :
  unit_draws g -> unit_draws (advance g k).
Proof. intros H j. exact (H j). Qed.

Lemma getConePoint_run (height maxRadius verticalBias : R) (g : RNG) :
  getConePoint height maxRadius verticalBias g
  = (let u := tape g (cursor g) in
     let a := tape g (S (cursor g)) in
     let w := tape g (S (S (cursor g))) in
     let r := sqrt w * ((1 - u * height / height) * maxRadius) in
     mkVector3 (r * cos (a * PI * 2)) (u * height - height / 2 + verticalBias)
               (r * sin (a * PI * 2)),
     advance g 3).
Proof. reflexivity. Qed.

Lemma getRandomSpherePoint_run (radius : R) (g : RNG) :
  0 < radius -> unit_draws g ->
  (getRandomSpherePoint radius g).2 = advance g 3 /\
  norm (getRandomSpherePoint radius g).1 <= radius.
Proof.
  intros HR Hg. split; [reflexivity |].
  pose proof (cbrt_unit _ (Hg (S (S (cursor g))))) as Hw.
  unfold getRandomSpherePoint, rbind, Math_random, rret. cbn [fst tape cursor].
  rewrite spherical_norm by nra. nra.
Qed.

(** An accepted cone sample, pushed outward, is a good target. *)
Lemma accepted_target_ok (u a w : R) :
  0 <= u < 1 -> 0 <= w < 1 ->
  let r := sqrt w * ((1 - u * CONFIG.treeHeight / CONFIG.treeHeight)
                     * (CONFIG.treeRadius * 0.9)) in
  let t := mkVector3 (r * cos (a * PI * 2))
                     (u * CONFIG.treeHeight - CONFIG.treeHeight / 2 + 1 + 5.0)
                     (r * sin (a * PI * 2)) in
  Rgtb (vy t) Ornaments.ceiling = false ->
  targetOk (if Rgtb (sqrt (vx t * vx t + vz t * vz t)) 0.1
            then mkVector3 (vx t * 1.1) (vy t) (vz t * 1.1)
            else t).
Proof.
  intros Hu Hw r t Hacc. apply Rgtb_false in Hacc.
  pose proof (sqrt_unit w Hw) as Hs.
  unfold targetOk, Ornaments.ceiling, CONFIG.treeHeight, CONFIG.treeRadius
    in *.
  assert (u * 12 / 12 = u) as Hq by field.
  assert (0 <= r <= (1 - u) * (4 * 0.9)) as Hr.
  { unfold r. rewrite Hq. nra. }
  assert (sqrt (r * cos (a * PI * 2) * (r * cos (a * PI * 2))
                + r * sin (a * PI * 2) * (r * sin (a * PI * 2))) = r) as Hd
      by (apply polar_radius; lra).
  clearbody r. subst t. cbn [vx vy vz] in *.
  destruct (Rgtb _ 0.1); cbn [vx vy vz].
  - split; [lra |].
    replace (r * cos (a * PI * 2) * 1.1 * (r * cos (a * PI * 2) * 1.1)
             + r * sin (a * PI * 2) * 1.1 * (r * sin (a * PI * 2) * 1.1))
      with ((1.1 * r) * cos (a * PI * 2) * ((1.1 * r) * cos (a * PI * 2))
            + (1.1 * r) * sin (a * PI * 2) * ((1.1 * r) * sin (a * PI * 2)))
      by ring.
    rewrite polar_radius by lra. lra.
  - split; [lra |]. rewrite Hd. lra.
Qed.

Lemma pushOrnament_run (t : Vector3) (data : Ornaments.Data) (g : RNG) :
  unit_draws g ->
  exists chaos rot,
    Ornaments.pushOrnament t data g
    = (Ornaments.mkData
         (Ornaments.chaosPos data ++ [chaos])
         (Ornaments.targetPos data
          ++ [if Rgtb (sqrt (vx t * vx t + vz t * vz t)) 0.1
              then mkVector3 (vx t * 1.1) (vy t) (vz t * 1.1)
              else t])
         (Ornaments.rotations data ++ [rot]),
       advance g 5) /\
    norm chaos <= 20 /\ rotationOk rot.
Proof.
  intros Hg.
  destruct (getRandomSpherePoint_run 20 g) as [Hnext Hnorm]; [lra | exact Hg |].
  eexists _, _. split; [reflexivity |]. split; [exact Hnorm |].
  pose proof PI_RGT_0 as Hpi.
  pose proof (Hg (3 + cursor g)%nat) as Ha.
  pose proof (Hg (S (3 + cursor g))) as Hb.
  unfold rotationOk. cbn [ex ey ez tape cursor advance Nat.add] in Ha, Hb |- *.
  repeat split; nra.
Qed.

(** One round of the loop of the memo while samples are still missing. *)
Lemma fillData_step (fuel count i : nat) (data : Ornaments.Data) (g : RNG) :
  (i < count)%nat ->
  let u := tape g (cursor g) in
  let a := tape g (S (cursor g)) in
  let w := tape g (S (S (cursor g))) in
  let r := sqrt w * ((1 - u * CONFIG.treeHeight / CONFIG.treeHeight)
                     * (CONFIG.treeRadius * 0.9)) in
  let t := mkVector3 (r * cos (a * PI * 2))
                     (u * CONFIG.treeHeight - CONFIG.treeHeight / 2 + 1 + 5.0)
                     (r * sin (a * PI * 2)) in
  Ornaments.fillData (S fuel) count i data g
  = if Rgtb (vy t) Ornaments.ceiling
    then Ornaments.fillData fuel count i data (advance g 3)
    else Ornaments.fillData fuel count (S i)
           (Ornaments.pushOrnament t data (advance g 3)).1
           (Ornaments.pushOrnament t data (advance g 3)).2.
Proof.
  intros Hi u a w r t. cbn [Ornaments.fillData].
  apply Nat.ltb_lt in Hi. rewrite Hi.
  unfold rbind at 1. rewrite getConePoint_run. cbn zeta. cbn [vx vy vz].
  subst t r w a u. cbn [vx vy vz].
  destruct (Rgtb _ Ornaments.ceiling); [reflexivity |].
  unfold rbind. destruct (Ornaments.pushOrnament _ data (advance g 3)).
  reflexivity.
Qed.

Lemma fillData_done (fuel count i : nat) (data : Ornaments.Data) (g : RNG) :
  (count <= i)%nat ->
  Ornaments.fillData fuel count i data g = (Some data, g).
Proof.
  intros Hi. apply Nat.ltb_ge in Hi.
  destruct fuel; cbn [Ornaments.fillData]; rewrite Hi; reflexivity.
Qed.

Lemma fillData_invariant (fuel : nat) :
  forall (count i : nat) (data data' : Ornaments.Data) (g g' : RNG),
    unit_draws g -> (i <= count)%nat ->
    wellFormed data i -> ornamentsPlaced data ->
    Ornaments.fillData fuel count i data g = (Some data', g') ->
    wellFormed data' count /\ ornamentsPlaced data'.
Proof.
  induction fuel as [| fuel IH]; intros count i data data' g g' Hg Hi Hwf Hok H.
  - destruct (le_lt_dec count i) as [Hge | Hlt].
    + rewrite fillData_done in H by exact Hge. injection H as <- <-.
      replace count with i by lia. tauto.
    + cbn [Ornaments.fillData] in H. apply Nat.ltb_lt in Hlt.
      rewrite Hlt in H. discriminate H.
  - destruct (le_lt_dec count i) as [Hge | Hlt].
    + rewrite fillData_done in H by exact Hge. injection H as <- <-.
      replace count with i by lia. tauto.
    + rewrite (fillData_step fuel count i data g Hlt) in H. cbn zeta in H.
      destruct (Rgtb _ Ornaments.ceiling) eqn:Hacc.
      * apply (IH count i data data' (advance g 3) g');
          [apply unit_draws_advance; exact Hg | exact Hi | exact Hwf
          | exact Hok | exact H].
      * match type of H with
        | context [Ornaments.pushOrnament ?t data (advance g 3)] =>
            destruct (pushOrnament_run t data (advance g 3))
              as (chaos & rot & Hpush & Hchaos & Hrot);
              [apply unit_draws_advance; exact Hg |];
            pose proof (accepted_target_ok _ (tape g (S (cursor g))) _
                          (Hg (cursor g)) (Hg (S (S (cursor g)))) Hacc)
              as Htarget
        end.
        rewrite Hpush in H. cbn [fst snd] in H.
        refine (IH count (S i) _ data' _ g' _ _ _ _ H);
          [do 2 apply unit_draws_advance; exact Hg | lia | |].
        -- destruct Hwf as (W1 & W2 & W3). unfold wellFormed.
           cbn [Ornaments.chaosPos Ornaments.targetPos Ornaments.rotations].
           rewrite !length_app. cbn [length]. lia.
        -- destruct Hok as (O1 & O2 & O3). unfold ornamentsPlaced.
           cbn [Ornaments.chaosPos Ornaments.targetPos Ornaments.rotations].
           rewrite !Forall_app, !Forall_singleton. tauto.
Qed.

Lemma fillData_terminates (n : nat) :
  forall (count i : nat) (data : Ornaments.Data) (g : RNG),
    (i + n = count)%nat -> unit_draws g -> (forall k, tape g k <= 0.85) ->
    exists data' g', Ornaments.fillData n count i data g = (Some data', g').
Proof.
  induction n as [| n IH]; intros count i data g Hn Hg Hlow.
  - eexists _, _. apply fillData_done. lia.
  - rewrite fillData_step by lia. cbn zeta.
    assert (Rgtb (tape g (cursor g) * CONFIG.treeHeight
                  - CONFIG.treeHeight / 2 + 1 + 5.0) Ornaments.ceiling = false)
      as Hacc.
    { apply Rgtb_false. unfold Ornaments.ceiling, CONFIG.treeHeight.
      pose proof (Hlow (cursor g)). lra. }
    cbn [vy]. rewrite Hacc.
    match goal with
    | |- context [Ornaments.pushOrnament ?t data (advance g 3)] =>
        destruct (pushOrnament_run t data (advance g 3))
          as (chaos & rot & Hpush & _);
          [apply unit_draws_advance; exact Hg |]
    end.
    rewrite Hpush. cbn [fst snd].
    apply IH; [lia | do 2 apply unit_draws_advance; exact Hg |].
    intros k. apply Hlow.
Qed.

Lemma fillData_starves (fuel : nat) :
  forall (count i : nat) (data : Ornaments.Data) (g : RNG),
    (i < count)%nat -> (forall k, 0.85 < tape g k) ->
    (Ornaments.fillData fuel count i data g).1 = None.
Proof.
  induction fuel as [| fuel IH]; intros count i data g Hi Hhigh.
  - cbn [Ornaments.fillData]. apply Nat.ltb_lt in Hi. rewrite Hi. reflexivity.
  - rewrite fillData_step by exact Hi. cbn zeta.
    assert (Rgtb (tape g (cursor g) * CONFIG.treeHeight
                  - CONFIG.treeHeight / 2 + 1 + 5.0) Ornaments.ceiling = true)
      as Hrej.
    { apply Rgtb_true. unfold Ornaments.ceiling, CONFIG.treeHeight.
      pose proof (Hhigh (cursor g)). lra. }
    cbn [vy]. rewrite Hrej. apply IH; [exact Hi |].
    intros k. apply Hhigh.
Qed.

(** X11: every data set the memo of an [Ornaments] mesh returns has
    exactly one entry per instance in each array, every target between
    0 and the ceiling of 10.2 and inside the cone widened by 1.1, every
    chaos point within 20 of the origin, every rotation below [PI]
    around X and Y and 0 around Z.  When every draw is at most 0.85 no
    sample is dropped and one round per instance completes the memo;
    when every draw is above 0.85 every sample is dropped and the loop
    never completes, whatever the number of rounds. *)
Theorem Ornaments_data_memo :
  forall (ty : Ornaments.OrnamentType) (g : RNG),
    unit_draws g ->
    (forall fuel data g',
        Ornaments.useMemoData fuel ty g = (Some data, g') ->
        wellFormed data (Ornaments.count ty) /\ ornamentsPlaced data)
    /\ ((forall k, tape g k <= 0.85) ->
        exists data g',
          Ornaments.useMemoData (Ornaments.count ty) ty g = (Some data, g'))
    /\ ((forall k, 0.85 < tape g k) ->
        forall fuel, (Ornaments.useMemoData fuel ty g).1 = None).
Proof.
  intros ty g Hg. unfold Ornaments.useMemoData. split; [| split].
  - intros fuel data g' H.
    apply (fillData_invariant fuel (Ornaments.count ty) 0
             Ornaments.emptyData data g g' Hg); [lia | | | exact H].
    + unfold wellFormed. cbn. tauto.
    + unfold ornamentsPlaced. cbn. repeat split; apply Forall_nil_2.
  - intros Hlow. apply fillData_terminates; [lia | exact Hg | exact Hlow].
  - intros Hhigh fuel. apply fillData_starves; [| exact Hhigh].
    destruct ty; cbn; lia.
Qed.

Lemma Ornaments_data_memo_witness :
  exists data g',
    Ornaments.useMemoData 30 Ornaments.gift (mkRNG (fun _ => 0.5) 0)
    = (Some data, g') /\
    wellFormed data 30 /\ ornamentsPlaced data.
Proof.
  assert (unit_draws (mkRNG (fun _ => 0.5) 0)) as Hg
      by (intros k; cbn; lra).
  destruct (Ornaments_data_memo Ornaments.gift (mkRNG (fun _ => 0.5) 0) Hg)
    as (Hinv & Hterm & _).
  destruct Hterm as (data & g' & Hrun); [intros k; cbn; lra |].
  exists data, g'. split; [exact Hrun |].
  exact (Hinv 30%nat data g' Hrun).
Defined.

(** ** The easing curve of the foliage shader *)

Lemma cube_le (t u : R) : 0 <= t <= u -> t * t * t <= u * u * u.
Proof.
  intros [H0 H1].
  assert (0 <= u * u + u * t + t * t) as Hq by nra.
  assert (u * u * u - t * t * t = (u - t) * (u * u + u * t + t * t)) as E
      by ring.
  nra.
Qed.

Lemma ease_low (t : R) :
  t < 0.5 -> Foliage.ease t = Some (4 * (t * t * t)).
Proof.
  intros H. unfold Foliage.ease. destruct (Rlt_dec t 0.5); [| lra].
  f_equal. replace 4.0 with 4 by lra. ring.
Qed.

Lemma glslPow_3 (x : R) : 0 <= x -> Foliage.glslPow x 3 = Some (x ^ 3).
Proof.
  intros H. unfold Foliage.glslPow. destruct (Rlt_dec x 0); [lra |].
  rewrite andb_false_r. reflexivity.
Qed.

Lemma ease_high (t : R) :
  0.5 <= t <= 1 ->
  Foliage.ease t = Some (1 - 4 * ((1 - t) * (1 - t) * (1 - t))).
Proof.
  intros H. unfold Foliage.ease. destruct (Rlt_dec t 0.5); [lra |].
  rewrite glslPow_3 by lra. f_equal.
  replace 1.0 with 1 by lra. replace (-2.0) with (-2) by lra.
  replace 2.0 with 2 by lra. simpl. field.
Qed.

(** Past 1 the base of [pow] is negative. *)
Lemma ease_undefined (t : R) : 1 < t -> Foliage.ease t = None.
Proof.
  intros H. unfold Foliage.ease, Foliage.glslPow.
  destruct (Rlt_dec t 0.5); [lra |].
  destruct (Rlt_dec (-2.0 * t + 2.0) 0); [reflexivity | lra].
Qed.

(** The value of the ease on [0, 1], as one function. *)
Lemma ease_unit (t : R) :
  0 <= t <= 1 ->
  exists e, Foliage.ease t = Some e /\ 0 <= e <= 1 /\
            ((t < 0.5 /\ e = 4 * (t * t * t)) \/
             (0.5 <= t /\ e = 1 - 4 * ((1 - t) * (1 - t) * (1 - t)))).
Proof.
  intros [H0 H1]. destruct (Rlt_dec t 0.5) as [Hl | Hh].
  - exists (4 * (t * t * t)). split; [apply ease_low; exact Hl |].
    pose proof (cube_le 0 t (conj (Rle_refl 0) H0)).
    pose proof (cube_le t 0.5 (conj H0 (Rlt_le _ _ Hl))).
    split; [lra | left; split; [exact Hl | reflexivity]].
  - exists (1 - 4 * ((1 - t) * (1 - t) * (1 - t))).
    split; [apply ease_high; lra |].
    assert (0 <= 1 - t <= 0.5) as Hv by lra.
    pose proof (cube_le 0 (1 - t) (conj (Rle_refl 0) (proj1 Hv))).
    pose proof (cube_le (1 - t) 0.5 Hv).
    split; [lra | right; split; [lra | reflexivity]].
Qed.

(** X12: the ease of the vertex shader is 0 at 0 and 1 at 1; it is
    defined for every progress up to 1 and undefined past 1, where the
    base of [pow] is negative; on [0, 1] its values lie in [0, 1], it is
    non-decreasing, and it is symmetric about the midpoint
    (ease(1 - t) = 1 - ease(t)). *)
Theorem Foliage_ease_curve :
  Foliage.ease 0 = Some 0 /\
  Foliage.ease 1 = Some 1 /\
  (forall t, t <= 1 -> is_Some (Foliage.ease t)) /\
  (forall t, 1 < t -> Foliage.ease t = None) /\
  (forall t, 0 <= t <= 1 ->
     exists e, Foliage.ease t = Some e /\
               Foliage.ease (1 - t) = Some (1 - e)) /\
  (forall t u, 0 <= t -> t <= u -> u <= 1 ->
     exists et eu, Foliage.ease t = Some et /\ Foliage.ease u = Some eu /\
                   0 <= et /\ et <= eu /\ eu <= 1).
Proof.
  split; [rewrite ease_low by lra; f_equal; ring |].
  split; [rewrite ease_high by lra; f_equal; ring |].
  split.
  { intros t Ht. destruct (Rlt_dec t 0.5) as [Hl | Hh].
    - rewrite (ease_low t Hl). eexists. reflexivity.
    - rewrite ease_high by lra. eexists. reflexivity. }
  split; [exact ease_undefined |].
  split.
  - intros t [H0 H1]. destruct (Rlt_dec t 0.5) as [Hl | Hh].
    + eexists. split; [apply (ease_low t Hl) |].
      rewrite ease_high by lra. f_equal. ring.
    + destruct (Rlt_dec 0.5 t) as [Hg | Heq].
      * eexists. split; [apply ease_high; lra |].
        rewrite ease_low by lra. f_equal. ring.
      * assert (t = 0.5) as -> by lra.
        eexists. split; [apply ease_high; lra |].
        replace (1 - 0.5) with 0.5 by lra. rewrite ease_high by lra.
        f_equal. lra.
  - intros t u H0 Htu H1.
    destruct (ease_unit t) as (et & Et & Rt & Vt); [lra |].
    destruct (ease_unit u) as (eu & Eu & Ru & Vu); [lra |].
    exists et, eu. split; [exact Et |]. split; [exact Eu |].
    split; [lra |]. split; [| lra].
    destruct Vt as [[Ht ->] | [Ht ->]]; destruct Vu as [[Hu ->] | [Hu ->]].
    + pose proof (cube_le t u (conj H0 Htu)). lra.
    + pose proof (cube_le t 0.5 (conj H0 (Rlt_le _ _ Ht))).
      assert (0 <= 1 - u <= 0.5) as Hv by lra.
      pose proof (cube_le (1 - u) 0.5 Hv).
      lra.
    + lra.
    + assert (0 <= 1 - u <= 1 - t) as Hv by lra.
      pose proof (cube_le (1 - u) (1 - t) Hv).
      lra.
Qed.

Lemma Foliage_ease_curve_witness :
  (exists et eu, Foliage.ease 0.25 = Some et /\
                 Foliage.ease 0.75 = Some eu /\
                 0 <= et /\ et <= eu /\ eu <= 1) /\
  Foliage.ease 1.5 = None.
Proof.
  assert (0 <= 0.25) as H0 by lra.
  assert (0.25 <= 0.75) as H1 by lra.
  assert (0.75 <= 1) as H2 by lra.
  assert (1 < 1.5) as H3 by lra.
  destruct Foliage_ease_curve as (_ & _ & _ & Hundef & _ & Hmono).
  split; [exact (Hmono 0.25 0.75 H0 H1 H2) | exact (Hundef 1.5 H3)].
Defined.

(** ** Captions and ids of the photo candidates *)

Lemma append_cons (c : ascii) (a b : string) :
  (String c a ++ b = String c (a ++ b))%string.
Proof. reflexivity. Qed.

Lemma hasDot_app (a b : string) :
  PolaroidPhotos.hasDot (a ++ b)
  = PolaroidPhotos.hasDot a || PolaroidPhotos.hasDot b.
Proof.
  induction a as [| c a IH]; [reflexivity |].
  rewrite append_cons. cbn [PolaroidPhotos.hasDot]. rewrite IH.
  apply orb_assoc.
Qed.

Lemma stripExtension_no_dot (s : string) :
  PolaroidPhotos.hasDot s = false -> PolaroidPhotos.stripExtension s = s.
Proof.
  induction s as [| c s IH]; [reflexivity |].
  cbn [PolaroidPhotos.hasDot PolaroidPhotos.stripExtension].
  intros H. apply orb_false_iff in H as [Hc Hs].
  rewrite Hc. cbn [andb]. rewrite IH by exact Hs. reflexivity.
Qed.

(** X13: the caption is the file name without its last extension: a
    name that ends in a dot followed by one or more characters other
    than a dot loses that ending and nothing else; a name without a dot,
    and a name that ends in a dot, are kept whole. *)
Theorem stripExtension_spec :
  (forall base ext : string,
      PolaroidPhotos.hasDot ext = false -> ext <> ""%string ->
      PolaroidPhotos.stripExtension (base ++ "." ++ ext) = base) /\
  (forall s : string,
      PolaroidPhotos.hasDot s = false -> PolaroidPhotos.stripExtension s = s) /\
  (forall s : string,
      PolaroidPhotos.stripExtension (s ++ ".") = (s ++ ".")%string).
Proof.
  split; [| split].
  - intros base ext Hext Hne.
    assert (String.eqb ext "" = false) as Hnb by (apply String.eqb_neq; exact Hne).
    induction base as [| c base IH].
    + change (PolaroidPhotos.stripExtension (String "." ext) = ""%string).
      cbn [PolaroidPhotos.stripExtension]. rewrite Hext, Hnb. reflexivity.
    + rewrite append_cons. cbn [PolaroidPhotos.stripExtension].
      assert (PolaroidPhotos.hasDot (base ++ "." ++ ext) = true) as ->.
      { rewrite !hasDot_app. change (PolaroidPhotos.hasDot ".") with true.
        cbn [orb]. apply orb_true_r. }
      cbn [negb]. rewrite andb_false_r. cbn [andb]. rewrite IH. reflexivity.
  - exact stripExtension_no_dot.
  - intros s. induction s as [| c s IH]; [reflexivity |].
    rewrite append_cons. cbn [PolaroidPhotos.stripExtension].
    assert (PolaroidPhotos.hasDot (s ++ ".") = true) as ->.
    { rewrite hasDot_app. change (PolaroidPhotos.hasDot ".") with true.
      apply orb_true_r. }
    cbn [negb]. rewrite andb_false_r. cbn [andb]. rewrite IH. reflexivity.
Qed.

Lemma stripExtension_spec_witness :
  PolaroidPhotos.stripExtension "holiday.2023.jpg" = "holiday.2023"%string.
Proof.
  assert ("jpg"%string <> ""%string) as Hne by discriminate.
  exact (proj1 stripExtension_spec "holiday.2023" "jpg" eq_refl Hne).
Defined.

Lemma candidates_lookup (resolveURL : string -> string) (files : list string)
    (i : nat) (c : PolaroidPhotos.Item) :
  PolaroidPhotos.candidates resolveURL files !! i = Some c ->
  PolaroidPhotos.id c = ("p" ++ pretty (i + 1)%nat)%string.
Proof.
  unfold PolaroidPhotos.candidates. rewrite list_lookup_imap.
  destruct (files !! i); [| discriminate].
  cbn. intros H. injection H as <-. reflexivity.
Qed.

Lemma candidates_ids_NoDup (resolveURL : string -> string)
    (files : list string) :
  NoDup (PolaroidPhotos.id <$> PolaroidPhotos.candidates resolveURL files).
Proof.
  apply NoDup_alt. intros i j x Hi Hj.
  rewrite list_lookup_fmap in Hi, Hj.
  destruct (PolaroidPhotos.candidates resolveURL files !! i) as [ci |] eqn:Eci;
    [| discriminate Hi].
  destruct (PolaroidPhotos.candidates resolveURL files !! j) as [cj |] eqn:Ecj;
    [| discriminate Hj].
  cbn in Hi, Hj. injection Hi as Hi. injection Hj as Hj.
  apply candidates_lookup in Eci, Ecj.
  rewrite Eci in Hi. rewrite Ecj in Hj. rewrite <- Hj in Hi.
  change ("p" ++ pretty (i + 1)%nat)%string
    with (String "p" (pretty (i + 1)%nat)) in Hi.
  change ("p" ++ pretty (j + 1)%nat)%string
    with (String "p" (pretty (j + 1)%nat)) in Hi.
  injection Hi as Hi. apply (inj pretty) in Hi. lia.
Qed.

Lemma filter_sublist {A} (f : A -> bool) (l : list A) :
  sublist (List.filter f l) l.
Proof.
  induction l as [| x l IH]; [constructor |].
  cbn. destruct (f x); [apply sublist_skip | apply sublist_cons]; exact IH.
Qed.

(** What [photos] makes of its items when it starts at index [i] of
    [n]: one photo per item, in order, with the id of the item, hung at
    the height that the band of its index and its jitter draw give. *)
Lemma photosFrom_spec (lookOutward : Vector3 -> PolaroidPhotos.Quaternion)
    (n : nat) (items : list PolaroidPhotos.Item) :
  forall (i : nat) (g : RNG),
    unit_draws g ->
    let r := PolaroidPhotos.photosFrom lookOutward n i items g in
    tape r.2 = tape g /\
    PolaroidPhotos.p_id <$> r.1 = PolaroidPhotos.id <$> items /\
    forall k p, r.1 !! k = Some p ->
      exists j, 0 <= j < 1 /\
        vy (PolaroidPhotos.targetPos p) = hangingHeight n (i + k) j.
Proof.
  induction items as [| item rest IH]; intros i g Hg.
  - cbn. split; [reflexivity |]. split; [reflexivity |].
    intros k p H. discriminate H.
  - cbn [PolaroidPhotos.photosFrom]. unfold rbind, rret.
    pose proof (makePhoto_spec lookOutward n i item g) as S0. cbn zeta in S0.
    destruct (PolaroidPhotos.makePhoto lookOutward n i item g) as [p0 g1].
    cbn [fst snd] in S0. destruct S0 as (Hid & _ & _ & Hy & Ht).
    assert (unit_draws g1) as Hg1 by (intros k; rewrite Ht; apply Hg).
    specialize (IH (S i) g1 Hg1). cbn zeta in IH.
    destruct (PolaroidPhotos.photosFrom lookOutward n (S i) rest g1)
      as [ps g2].
    cbn [fst snd] in IH |- *. destruct IH as (Ht2 & Hids & Hys).
    split; [rewrite Ht2; exact Ht |].
    split; [cbn [fmap list_fmap]; f_equal; [exact Hid | exact Hids] |].
    intros k p Hk. destruct k as [| k].
    + cbn in Hk. injection Hk as <-. exists (tape g (cursor g)).
      split; [apply Hg |]. rewrite Hy. f_equal. lia.
    + cbn in Hk. destruct (Hys k p Hk) as (j & Hj & Hp).
      exists j. split; [exact Hj |]. rewrite Hp. f_equal. lia.
Qed.

Lemma sublist_fmap_2 {A B} (f : A -> B) (l1 l2 : list A) :
  sublist l1 l2 -> sublist (f <$> l1) (f <$> l2).
Proof.
  induction 1 as [| x l1 l2 _ IH | x l1 l2 _ IH]; cbn.
  - constructor.
  - apply sublist_skip. exact IH.
  - apply sublist_cons. exact IH.
Qed.

Lemma candidates_ids (resolveURL : string -> string) (names : list string) :
  PolaroidPhotos.id <$> PolaroidPhotos.candidates resolveURL names
  = (fun i => ("p" ++ pretty (i + 1)%nat)%string) <$> seq 0 (length names).
Proof.
  apply list_eq. intros i. rewrite !list_lookup_fmap.
  unfold PolaroidPhotos.candidates. rewrite list_lookup_imap.
  destruct (names !! i) as [name |] eqn:Ei.
  - rewrite lookup_seq_lt by (apply lookup_lt_is_Some; eauto). reflexivity.
  - rewrite lookup_seq_ge by (apply lookup_ge_None; exact Ei). reflexivity.
Qed.

(** [photos] keeps the ids of its items, in their order. *)
Lemma photosFrom_ids (lookOutward : Vector3 -> PolaroidPhotos.Quaternion)
    (n : nat) (items : list PolaroidPhotos.Item) :
  forall (i : nat) (g : RNG),
    PolaroidPhotos.p_id <$> (PolaroidPhotos.photosFrom lookOutward n i items g).1
    = PolaroidPhotos.id <$> items.
Proof.
  induction items as [| item rest IH]; intros i g; [reflexivity |].
  cbn [PolaroidPhotos.photosFrom]. unfold rbind, rret.
  pose proof (makePhoto_spec lookOutward n i item g) as S0. cbn zeta in S0.
  destruct (PolaroidPhotos.makePhoto lookOutward n i item g) as [p0 g1].
  cbn [fst snd] in S0. destruct S0 as (Hid & _).
  specialize (IH (S i) g1).
  destruct (PolaroidPhotos.photosFrom lookOutward n (S i) rest g1) as [ps g2].
  cbn [fst snd] in IH |- *. cbn [fmap list_fmap]. f_equal; assumption.
Qed.

(** X14: whatever the manifest request comes to and whichever images
    load, either an entry of the manifest is not a string and the
    second effect throws, or the entries are file names and the ids of
    the photo ornaments (the keys of the rendered children) are exactly
    the ids of the candidates whose image loaded, in their order; the
    candidates are numbered p1, p2, ... by position, so the ids are
    pairwise distinct, and there are as many photos as file names less
    the images that failed. *)
Theorem photo_keys_distinct :
  forall (resolveURL : string -> string)
         (imageLoads : PolaroidPhotos.Item -> bool)
         (lookOutward : Vector3 -> PolaroidPhotos.Quaternion)
         (f : PolaroidPhotos.Fetch) (g : RNG),
    match
      (PolaroidPhotos.mountPhotos resolveURL imageLoads lookOutward f g).1
    with
    | None =>
        exists entry, entry ∈ PolaroidPhotos.loadManifest f /\
                      PolaroidPhotos.asString entry = None
    | Some ps =>
        exists names : list string,
          PolaroidPhotos.loadManifest f = PolaroidPhotos.JString <$> names /\
          PolaroidPhotos.p_id <$> ps
          = PolaroidPhotos.id
              <$> List.filter imageLoads
                    (PolaroidPhotos.candidates resolveURL names) /\
          PolaroidPhotos.id <$> PolaroidPhotos.candidates resolveURL names
          = (fun i => ("p" ++ pretty (i + 1)%nat)%string)
              <$> seq 0 (length names) /\
          NoDup (PolaroidPhotos.p_id <$> ps) /\
          (length ps
           + length (List.filter (fun c => negb (imageLoads c))
                       (PolaroidPhotos.candidates resolveURL names))
           = length names)%nat
    end.
Proof.
  intros resolveURL imageLoads lookOutward f g.
  destruct (PolaroidPhotos.fileNames (PolaroidPhotos.loadManifest f))
    as [names |] eqn:E.
  - rewrite (mountPhotos_names resolveURL imageLoads lookOutward f names g E).
    exists names.
    assert (PolaroidPhotos.p_id
              <$> (PolaroidPhotos.photos lookOutward
                     (PolaroidPhotos.preload resolveURL imageLoads names) g).1
            = PolaroidPhotos.id
                <$> List.filter imageLoads
                      (PolaroidPhotos.candidates resolveURL names)) as Hids.
    { unfold PolaroidPhotos.photos. rewrite photosFrom_ids.
      unfold PolaroidPhotos.preload. rewrite omap_if_filter. reflexivity. }
    split; [apply fileNames_Some; exact E |].
    split; [exact Hids |].
    split; [apply candidates_ids |].
    split.
    + rewrite Hids.
      apply (sublist_NoDup _ _ (candidates_ids_NoDup resolveURL names)).
      apply sublist_fmap_2, filter_sublist.
    + rewrite <- (preload_length resolveURL imageLoads names).
      f_equal.
      rewrite <- (length_fmap PolaroidPhotos.p_id), Hids, length_fmap.
      unfold PolaroidPhotos.preload. rewrite omap_if_filter. reflexivity.
  - rewrite (proj2 (mountPhotos_throws resolveURL imageLoads lookOutward
                     f g) E).
    apply fileNames_None. exact E.
Qed.

(** ** Heights of the photo ornaments *)

Lemma clamp_range (v lo hi : R) : lo <= hi -> lo <= clamp v lo hi <= hi.
Proof.
  intros H. unfold clamp, Rmax, Rmin.
  destruct (Rle_dec hi v); destruct (Rle_dec lo _); lra.
Qed.

Lemma hangingHeight_range (n i : nat) (j : R) :
  PolaroidPhotos.minY <= hangingHeight n i j <= PolaroidPhotos.maxY.
Proof.
  unfold hangingHeight, PolaroidPhotos.yInternalOf.
  match goal with
  | |- context [clamp ?v PolaroidPhotos.minY PolaroidPhotos.maxY] =>
      pose proof (clamp_range v PolaroidPhotos.minY PolaroidPhotos.maxY) as H;
      set (y := clamp v PolaroidPhotos.minY PolaroidPhotos.maxY) in *
  end.
  unfold PolaroidPhotos.minY, PolaroidPhotos.maxY, PolaroidPhotos.verticalBias,
    PolaroidPhotos.yShift, CONFIG.treeHeight in *.
  rewrite clamp_id by lra. lra.
Qed.

Lemma bandLo_mono (n i k : nat) :
  (0 < n)%nat -> (i <= k)%nat ->
  PolaroidPhotos.bandLo n i <= PolaroidPhotos.bandLo n k.
Proof.
  intros Hn Hik. unfold PolaroidPhotos.bandLo, PolaroidPhotos.minY,
    PolaroidPhotos.maxY, CONFIG.treeHeight, Rdiv.
  assert (0 < INR n) as Hp by (apply lt_0_INR; exact Hn).
  assert (0 < / INR n) as Hq by (apply Rinv_0_lt_compat; exact Hp).
  assert (INR i <= INR k) as Hle by (apply le_INR; exact Hik).
  nra.
Qed.

(** X15: every photo ornament hangs between heights 1.8 and 9.2; with
    one to six photos, photo [k] hangs strictly inside height band [k],
    so the photos hang at strictly increasing heights in the order of
    their items. *)
Theorem photos_hang_in_their_bands :
  forall (lookOutward : Vector3 -> PolaroidPhotos.Quaternion)
         (items : list PolaroidPhotos.Item) (g : RNG),
    unit_draws g ->
    let ps := (PolaroidPhotos.photos lookOutward items g).1 in
    length ps = length items /\
    (forall k p, ps !! k = Some p ->
       PolaroidPhotos.minY <= vy (PolaroidPhotos.targetPos p)
       <= PolaroidPhotos.maxY) /\
    ((1 <= length items <= 6)%nat ->
     (forall k p, ps !! k = Some p ->
        PolaroidPhotos.inBand (length items) k
          (vy (PolaroidPhotos.targetPos p))) /\
     (forall k k' p p', (k < k')%nat ->
        ps !! k = Some p -> ps !! k' = Some p' ->
        vy (PolaroidPhotos.targetPos p) < vy (PolaroidPhotos.targetPos p'))).
Proof.
  intros lookOutward items g Hg ps. subst ps. unfold PolaroidPhotos.photos.
  destruct (photosFrom_spec lookOutward (length items) items 0 g Hg)
    as (_ & Hids & Hys).
  set (ps := (PolaroidPhotos.photosFrom lookOutward (length items) 0 items g).1)
    in *.
  assert (length ps = length items) as Hlen.
  { rewrite <- (length_fmap PolaroidPhotos.p_id), Hids. apply length_fmap. }
  split; [exact Hlen |]. split.
  - intros k p Hk. destruct (Hys k p Hk) as (j & _ & ->).
    apply hangingHeight_range.
  - intros Hn.
    assert (forall k p, ps !! k = Some p ->
              PolaroidPhotos.inBand (length items) k
                (vy (PolaroidPhotos.targetPos p))) as Hband.
    { intros k p Hk. destruct (Hys k p Hk) as (j & Hj & ->).
      apply hangingHeight_in_band; [exact Hn | | exact Hj].
      apply lookup_lt_Some in Hk. cbn. lia. }
    split; [exact Hband |].
    intros k k' p p' Hlt Hk Hk'.
    pose proof (Hband k p Hk) as [_ Hhi].
    pose proof (Hband k' p' Hk') as [Hlo _].
    assert (PolaroidPhotos.bandHi (length items) k
            = PolaroidPhotos.bandLo (length items) (S k)) as E by reflexivity.
    pose proof (bandLo_mono (length items) (S k) k') as Hmono.
    rewrite E in Hhi. specialize (Hmono ltac:(lia) ltac:(lia)). lra.
Qed.

Lemma photos_hang_in_their_bands_witness :
  let ps := (PolaroidPhotos.photos
               (fun _ => PolaroidPhotos.mkQuaternion 0 0 0 1)
               [PolaroidPhotos.mkItem "p1" "a" "a";
                PolaroidPhotos.mkItem "p2" "b" "b";
                PolaroidPhotos.mkItem "p3" "c" "c"]%string
               (mkRNG (fun _ => 0.5) 0)).1 in
  length ps = 3%nat /\
  forall k p, ps !! k = Some p ->
    PolaroidPhotos.inBand 3 k (vy (PolaroidPhotos.targetPos p)).
Proof.
  cbn zeta.
  assert (unit_draws (mkRNG (fun _ => 0.5) 0)) as Hg
      by (intros k; cbn; lra).
  destruct (photos_hang_in_their_bands
              (fun _ => PolaroidPhotos.mkQuaternion 0 0 0 1)
              [PolaroidPhotos.mkItem "p1" "a" "a";
               PolaroidPhotos.mkItem "p2" "b" "b";
               PolaroidPhotos.mkItem "p3" "c" "c"]%string
              (mkRNG (fun _ => 0.5) 0) Hg) as (Hlen & _ & Hbands).
  split; [exact Hlen |].
  assert ((1 <= 3 <= 6)%nat) as H3 by lia.
  exact (proj1 (Hbands H3)).
Defined.

(** X16: six is the limit: with seven or more photos a jitter draw of 0
    puts photo [i] at or below the lower edge of its band, so it is not
    inside its own band. *)
Theorem photos_leave_their_bands :
  forall (n i : nat),
    (7 <= n)%nat -> (i < n)%nat ->
    hangingHeight n i 0 <= PolaroidPhotos.bandLo n i /\
    ~ PolaroidPhotos.inBand n i (hangingHeight n i 0).
Proof.
  intros n i Hn Hi.
  assert (hangingHeight n i 0 <= PolaroidPhotos.bandLo n i) as Hle.
  { assert (7 <= INR n) as Hn7.
    { pose proof (le_INR 7 n Hn) as H. simpl in H. lra. }
    assert (0 <= INR i) as Hi0 by apply pos_INR.
    assert (INR i + 1 <= INR n) as Hi1.
    { rewrite <- S_INR. apply le_INR. lia. }
    assert (INR n * / INR n = 1) as Hq by (apply Rinv_r; lra).
    assert (0 < / INR n) as Hqpos by (apply Rinv_0_lt_compat; lra).
    unfold PolaroidPhotos.bandLo, hangingHeight, PolaroidPhotos.yInternalOf,
      PolaroidPhotos.minY, PolaroidPhotos.maxY, PolaroidPhotos.verticalBias,
      PolaroidPhotos.yShift, CONFIG.treeHeight, Rdiv.
    set (q := / INR n) in *.
    assert (7 * q <= 1) as Hq7 by nra.
    assert (INR i * q + q <= 1) as Htop by nra.
    assert (0 <= INR i * q) as Hbot by nra.
    set (A := INR i * q) in *.
    replace ((INR i + 0.5) * q) with (A + 0.5 * q) by (unfold A; ring).
    match goal with
    | |- context [clamp ?v 1.8 (12 - 2.8)] =>
        pose proof (clamp_range v 1.8 (12 - 2.8)) as Hr;
        assert (clamp v 1.8 (12 - 2.8) <= Rmax 1.8 v) as Hup;
        [unfold clamp; apply Rle_max_compat_l; apply Rmin_r |];
        assert (Rmax 1.8 v <= 1.8 + (12 - 2.8 - 1.8) * A) as Hmax;
        [apply Rmax_lub; lra |];
        set (y := clamp v 1.8 (12 - 2.8)) in *
    end.
    rewrite clamp_id by lra. lra. }
  split; [exact Hle |].
  unfold PolaroidPhotos.inBand. lra.
Qed.

Lemma photos_leave_their_bands_witness :
  ~ PolaroidPhotos.inBand 7 1 (hangingHeight 7 1 0).
Proof.
  assert ((7 <= 7)%nat) as H7 by lia.
  assert ((1 < 7)%nat) as H1 by lia.
  exact (proj2 (photos_leave_their_bands 7 1 H7 H1)).
Defined.

(** ** The camera of the scene *)

Lemma cameraFrame_idle (x y z : R) :
  Scene.cameraFrame None (Scene.mkJsVector3 (Some x) (Some y) (Some z))
  = Scene.mkJsVector3 (Some (x * 0.95)) (Some (6 + (y - 6) * 0.95))
                      (Some (25 + (z - 25) * 0.95)).
Proof.
  unfold Scene.cameraFrame, Scene.destructureXY, Scene.cameraTarget,
    Scene.jsLerp, Scene.num1, Scene.num2, Scene.radius.
  cbn. rewrite Rmult_0_l, sin_0, cos_0.
  f_equal; f_equal; lra.
Qed.

(** X17: while there is no gesture object, every frame moves the
    camera 5% of the way to (0, 6, 25): after [k] frames from (x, y, z)
    it is at (x 0.95^k, 6 + (y - 6) 0.95^k, 25 + (z - 25) 0.95^k), and
    at (0, 6, 25) it stays. *)
Theorem camera_without_gesture :
  forall (k : nat) (x y z : R),
    Scene.cameraAfter (replicate k None)
      (Scene.mkJsVector3 (Some x) (Some y) (Some z))
    = Scene.mkJsVector3 (Some (x * 0.95 ^ k))
                        (Some (6 + (y - 6) * 0.95 ^ k))
                        (Some (25 + (z - 25) * 0.95 ^ k)).
Proof.
  unfold Scene.cameraAfter.
  induction k as [| k IH]; intros x y z.
  - cbn. f_equal; f_equal; lra.
  - cbn [replicate foldl]. rewrite cameraFrame_idle, IH.
    f_equal; f_equal; simpl; lra.
Qed.

Lemma cameraFrame_nan (gesture : option HandGesture) :
  Scene.cameraFrame gesture (Scene.mkJsVector3 None None None)
  = Scene.mkJsVector3 None None None.
Proof. unfold Scene.cameraFrame. destruct gesture; reflexivity. Qed.

(** X18: a frame rendered with a gesture object takes [x] and [y] from
    an object that has neither, so the camera position becomes NaN in
    all three coordinates, and it is NaN after every later frame, with
    or without a gesture. *)
Theorem camera_with_gesture :
  forall (before after : list (option HandGesture)) (g : HandGesture)
         (position : Scene.JsVector3),
    Scene.cameraFrame (Some g) position
    = Scene.mkJsVector3 None None None /\
    Scene.cameraAfter (before ++ Some g :: after) position
    = Scene.mkJsVector3 None None None.
Proof.
  intros before after g position.
  assert (forall pos, Scene.cameraFrame (Some g) pos
                      = Scene.mkJsVector3 None None None) as Hnan.
  { intros pos.
    unfold Scene.cameraFrame, Scene.destructureXY, Scene.cameraTarget,
      Scene.jsLerp, Scene.num1, Scene.num2. cbn.
    destruct (Scene.jx pos), (Scene.jy pos), (Scene.jz pos); reflexivity. }
  split; [apply Hnan |].
  unfold Scene.cameraAfter. rewrite foldl_app. cbn [foldl]. rewrite Hnan.
  induction after as [| g1 after IH]; [reflexivity |].
  cbn [foldl]. rewrite cameraFrame_nan. exact IH.
Qed.

(** ** The tree state over a run of events *)

Lemma lastOf_snoc {A B} (f : A -> option B) (l : list A) (x : A) :
  lastOf f (l ++ [x])
  = match f x with Some b => Some b | None => lastOf f l end.
Proof. unfold lastOf. rewrite foldl_app. reflexivity. Qed.

(** X19: after any run of detection results and clicks, the tree state
    is the one asked for by the last detected reading or click of the
    run (open hand or UNLEASH: CHAOS; closed hand or FORM: FORMED) and,
    without any, the state before the run; the gesture is the last
    reading that was not null, detected or not; the app state and the
    error message are never touched. *)
Theorem tree_state_follows_last_command :
  forall (events : list Event) (a : App),
    treeState (handleAll events a)
    = default (treeState a) (lastOf command events) /\
    gesture (handleAll events a)
    = match lastOf reading events with
      | Some g => Some g
      | None => gesture a
      end /\
    appState (handleAll events a) = appState a /\
    errorMsg (handleAll events a) = errorMsg a.
Proof.
  intros events a. induction events as [| e events IH] using rev_ind.
  - cbn. tauto.
  - unfold handleAll in *. rewrite foldl_app. cbn [foldl].
    destruct IH as (Ht & Hg & Hs & He).
    rewrite !lastOf_snoc.
    destruct e as [[r |] | c]; cbn [handle command reading].
    + rewrite onResult_treeState, onResult_gesture.
      split; [destruct (r_detected r); [reflexivity | exact Ht] |].
      split; [reflexivity |].
      unfold onResult. destruct (r_detected r), (r_isOpen r); cbn; tauto.
    + rewrite onResult_null. tauto.
    + destruct c; cbn; tauto.
Qed.

(** ** Where a photo is drawn *)

Lemma settle (c t w p b : R) :
  0 <= p <= 1 -> - b <= w <= b ->
  Rabs (c + (t + w - c) * p - t) <= b + (1 - p) * Rabs (c - t).
Proof.
  intros Hp Hw. unfold Rabs.
  destruct (Rcase_abs (c + (t + w - c) * p - t));
    destruct (Rcase_abs (c - t)); nra.
Qed.

Lemma scaled_bound (v b : R) : - 1 <= v <= 1 -> 0 <= b -> - b <= v * b <= b.
Proof. intros Hv Hb. nra. Qed.

(** X20: a photo of a FORMED tree is drawn within its wobble (0.04 in
    x, 0.08 in y, none in z) of the point that lies the fraction
    1 - p of the way from its target back to its chaos position; at
    progress 1 it is within the wobble of its target. *)
Theorem photo_settles_on_target :
  forall (photo : PolaroidPhotos.Photo) (index : nat) (time p : R),
    0 <= p <= 1 ->
    let pos := PolaroidPhotos.photoPosition photo index FORMED time p in
    let target := PolaroidPhotos.targetPos photo in
    let chaos := PolaroidPhotos.chaosPos photo in
    Rabs (vx pos - vx target) <= 0.04 + (1 - p) * Rabs (vx chaos - vx target) /\
    Rabs (vy pos - vy target) <= 0.08 + (1 - p) * Rabs (vy chaos - vy target) /\
    vz pos - vz target = (1 - p) * (vz chaos - vz target).
Proof.
  intros photo index time p Hp pos target chaos.
  subst pos target chaos.
  unfold PolaroidPhotos.photoPosition, lerpVectors. cbn [isFormed vx vy vz].
  split; [| split].
  - apply settle; [exact Hp |]. apply scaled_bound; [apply COS_bound | lra].
  - apply settle; [exact Hp |]. apply scaled_bound; [apply SIN_bound | lra].
  - ring.
Qed.

Lemma photo_settles_on_target_witness :
  Rabs (vy (PolaroidPhotos.photoPosition (samplePhoto "p1" 3) 0 FORMED 2 1) - 3)
  <= 0.08.
Proof.
  assert (0 <= 1 <= 1) as Hp by lra.
  pose proof (proj1 (proj2 (photo_settles_on_target
                              (samplePhoto "p1" 3) 0 2 1 Hp))) as H.
  cbn [samplePhoto PolaroidPhotos.targetPos PolaroidPhotos.chaosPos vy origin]
    in H.
  lra.
Defined.

(** ** Where a foliage particle is drawn *)

(** X21: the vertex shader leaves a particle at its chaos position when
    uProgress is 0, and at uProgress 1 puts it at the height of its
    target, within 0.05 of the target in x and in z; at both ends the
    position is defined. *)
Theorem Foliage_particle_ends :
  forall (uTime : R) (aChaosPos aTargetPos : Vector3),
    Foliage.vertexPos 0 uTime aChaosPos aTargetPos = Some aChaosPos /\
    exists pos,
      Foliage.vertexPos 1 uTime aChaosPos aTargetPos = Some pos /\
      vy pos = vy aTargetPos /\
      Rabs (vx pos - vx aTargetPos) <= 0.05 /\
      Rabs (vz pos - vz aTargetPos) <= 0.05.
Proof.
  intros uTime c t. split; [apply Foliage_vertexPos_chaos |].
  unfold Foliage.vertexPos.
  assert (Rgtb 1 0.8 = true) as -> by (apply Rgtb_true; lra).
  assert (Foliage.ease 1 = Some 1) as ->
      by (rewrite ease_high by lra; f_equal; ring).
  eexists. split; [reflexivity |].
  unfold Foliage.mix. cbn [vx vy vz].
  split; [ring |].
  split.
  - match goal with
    | |- context [sin ?x] => pose proof (SIN_bound x) as Hb
    end.
    unfold Rabs. destruct (Rcase_abs _); lra.
  - match goal with
    | |- context [cos ?x] => pose proof (COS_bound x) as Hb
    end.
    unfold Rabs. destruct (Rcase_abs _); lra.
Qed.
